(** * Whisper JNI bridge: loader callbacks and transcription request

    A shallow embedding of [app/src/main/cpp/native_bridge/whisper_jni.cpp].

    The bridge is glue between three worlds: the Java objects handed in
    through JNI (an [InputStream], an [AssetManager], a [float[]]), the
    NDK asset API, and the whisper.cpp engine.  None of the three is code
    of the bridge, so each is an interface here (a type class) and the
    bridge functions are written over it, with explicit
    state passing for the objects the C++ code mutates and a list of log
    lines / engine calls for what it emits. *)

From Stdlib Require Import String ZArith QArith Qabs List Bool Lia.
From Stdlib Require Import Floats.SpecFloat.
Import ListNotations.
Local Open Scope Z_scope.

(** ** Machine integers

    [size_t] is 32 or 64 bits wide depending on the Android ABI, [jint] is
    always a 32-bit two's complement integer.  Values are kept in [Z]; the
    conversions the C++ code performs are written out. *)

Inductive abi : Set := ILP32 | LP64.

Definition size_bits (a : abi) : Z :=
  match a with ILP32 => 32 | LP64 => 64 end.

Definition SIZE_MODULUS (a : abi) : Z := 2 ^ size_bits a.
Definition SIZE_MAX (a : abi) : Z := SIZE_MODULUS a - 1.
Definition INT_MIN : Z := - 2 ^ 31.
Definition INT_MAX : Z := 2 ^ 31 - 1.

Definition is_size_t (a : abi) (z : Z) : Prop := 0 <= z < SIZE_MODULUS a.
Definition is_jint (z : Z) : Prop := INT_MIN <= z <= INT_MAX.

(** [(size_t) z]: reduction modulo [2^w]. *)
Definition to_size_t (a : abi) (z : Z) : Z := z mod SIZE_MODULUS a.

(** [(jint) z]: the low 32 bits read as a signed value (what clang does for
    an out-of-range conversion, and what C++20 mandates). *)
Definition to_jint (z : Z) : Z := (z + 2 ^ 31) mod 2 ^ 32 - 2 ^ 31.

Definition byte : Set := Z.

(** ** Log lines

    [LOGI]/[LOGW]/[LOGE] with the format arguments as payload. *)

Inductive log_level : Set := INFO | WARN | ERROR.

Module Jni.

(** ** The Java [InputStream] seen through JNI

    [available] is [int available()], [read] is [int read(byte[] b, int off,
    int len)]: given the requested length it answers the returned count and
    the bytes it stored from [b[off]] on.  Both may change the stream. *)

Class InputStream (S : Type) : Type := {
  available : S -> Z * S;
  read : S -> Z -> Z -> (Z * list byte) * S
}.

(** A Java byte array: fixed length, zero-initialised by [NewByteArray]. *)
Definition NewByteArray (n : Z) : option (list byte) :=
  if n <? 0 then None else Some (repeat 0 (Z.to_nat n)).

(** Storing [bs] into [arr] from index [off]; the array keeps its length. *)
Fixpoint store_bytes (arr : list byte) (off : nat) (bs : list byte) : list byte :=
  match arr, off with
  | [], _ => []
  | x :: arr', S off' => x :: store_bytes arr' off' bs
  | _ :: arr', O =>
      match bs with
      | [] => arr
      | b :: bs' => b :: store_bytes arr' O bs'
      end
  end.

End Jni.

Module StreamLoader.
Import Jni.

Section WithStream.
Context {St : Type} `{InputStream St}.

(** [struct input_stream_context]: [env], [thiz] and the two method ids are
    the JNI handles through which [available] and [read] are called; the
    data are the running offset and the stream object. *)
Record input_stream_context : Type := {
  offset : Z;
  input_stream : St
}.

Inductive stream_log : Type :=
| PartialRead (requested copied n_read : Z).

(** Line 42:
    [read_size < (size_t)avail_size ? (jint)read_size : avail_size]. *)
Definition size_to_copy (a : abi) (read_size avail_size : Z) : Z :=
  if read_size <? to_size_t a avail_size then to_jint read_size else avail_size.

(** What one call of [input_stream_read] did. *)
Record read_result : Type := {
  returned : Z;                 (* the [size_t] handed back to the engine *)
  requested_len : Z;            (* [len] passed to the stream's [read] *)
  copied : Z;                   (* byte count given to [memcpy] *)
  n_read : Z;                   (* what the stream's [read] answered *)
  output : list byte;           (* bytes written to [output] *)
  logged : list stream_log;
  ctx_after : input_stream_context
}.

(** [input_stream_read].  [NewByteArray] of a negative length raises
    [NegativeArraySizeException] and yields no array; the C++ code goes on
    with the null reference, which has no defined behaviour: [None]. *)
Definition input_stream_read (a : abi) (ctx : input_stream_context)
    (read_size : Z) : option read_result :=
  let '(avail_size, s1) := available (input_stream ctx) in
  let size := size_to_copy a read_size avail_size in
  match NewByteArray size with
  | None => None
  | Some byte_array =>
      let '((n, stored), s2) := read s1 0 size in
      let byte_array_elements := store_bytes byte_array O stored in
      Some {| returned := to_size_t a size;
              requested_len := size;
              copied := to_size_t a size;
              n_read := n;
              output := firstn (Z.to_nat (to_size_t a size)) byte_array_elements;
              logged :=
                if negb (size =? to_jint read_size) || negb (size =? n)
                then [PartialRead read_size size n] else [];
              ctx_after :=
                {| offset := to_size_t a (offset ctx + to_size_t a size);
                   input_stream := s2 |} |}
  end.

(** [input_stream_eof]: one [available] call, compared with zero. *)
Definition input_stream_eof (ctx : input_stream_context)
    : bool * input_stream_context :=
  let '(result, s1) := available (input_stream ctx) in
  (result <=? 0, {| offset := offset ctx; input_stream := s1 |}).

(** [input_stream_close]: [UNUSED(ctx)]. *)
Definition input_stream_close (ctx : input_stream_context)
    : input_stream_context := ctx.

(** [n] successive [eof] calls, collecting the answers. *)
Fixpoint eof_calls (n : nat) (ctx : input_stream_context)
    : list bool * input_stream_context :=
  match n with
  | O => ([], ctx)
  | S n' =>
      let '(b, is1) := input_stream_eof ctx in
      let '(bs, is2) := eof_calls n' is1 in
      (b :: bs, is2)
  end.

(** What [available] is expected to be on the host side: an observer that
    leaves the stream as it was. *)
Definition available_observes : Prop :=
  forall s : St, snd (available s) = s.

End WithStream.

Arguments input_stream_context St : clear implicits.
Arguments read_result St : clear implicits.

End StreamLoader.

(** ** A scripted stream

    A host stream given by what it reports and delivers: [reports] is the
    answer of [available], [pending] the bytes not yet delivered, [burst]
    the largest number of bytes one [read] hands over. *)

Module Scripted.
Import Jni.

Record scripted_stream : Set := {
  reports : Z;
  pending : list byte;
  burst : nat
}.

Definition scripted_read (s : scripted_stream) (off len : Z)
    : (Z * list byte) * scripted_stream :=
  if len <=? 0 then ((0, []), s)
  else match pending s with
       | [] => ((-1, []), s)
       | _ =>
           let k := Nat.min (burst s) (Z.to_nat len) in
           let got := firstn k (pending s) in
           ((Z.of_nat (length got), got),
            {| reports := reports s - Z.of_nat (length got);
               pending := skipn k (pending s);
               burst := burst s |})
       end.

#[export] Instance scripted_InputStream : InputStream scripted_stream := {
  available s := (reports s, s);
  read := scripted_read
}.

(** A stream that reports [-1] bytes available and has nothing to give. *)
Definition exhausted_stream : scripted_stream :=
  {| reports := -1; pending := []; burst := 0 |}.

(** A stream that reports ten bytes available but hands over three per
    [read]. *)
Definition trickling_stream : scripted_stream :=
  {| reports := 10;
     pending := [1; 2; 3; 4; 5; 6; 7; 8; 9; 10];
     burst := 3 |}.

End Scripted.

(** ** A stream that is still being filled

    A host stream fed by a producer (a socket, a pipe): [buffered] holds
    the bytes that can be read now, [in_flight] the batches still on their
    way.  [available] answers the number of buffered bytes; by the next
    call the next batch has come in. *)

Module Arriving.
Import Jni.

Record arriving_stream : Set := {
  buffered : list byte;
  in_flight : list (list byte)
}.

Definition receive (s : arriving_stream) : arriving_stream :=
  match in_flight s with
  | [] => s
  | batch :: rest => {| buffered := buffered s ++ batch; in_flight := rest |}
  end.

Definition arriving_read (s : arriving_stream) (off len : Z)
    : (Z * list byte) * arriving_stream :=
  if len <=? 0 then ((0, []), s)
  else match buffered s with
       | [] => ((-1, []), s)
       | _ =>
           let got := firstn (Z.to_nat len) (buffered s) in
           ((Z.of_nat (length got), got),
            {| buffered := skipn (Z.to_nat len) (buffered s);
               in_flight := in_flight s |})
       end.

#[export] Instance arriving_InputStream : InputStream arriving_stream := {
  available s := (Z.of_nat (length (buffered s)), receive s);
  read := arriving_read
}.

(** Nothing buffered yet, five bytes on their way. *)
Definition late_stream : arriving_stream :=
  {| buffered := []; in_flight := [[1; 2; 3; 4; 5]] |}.

End Arriving.

(** ** The engine's loader interface ([whisper.h])

    [struct whisper_model_loader]: a context and three callbacks.  [read]
    answers the byte count as [size_t] together with the bytes it wrote. *)

Module Whisper.

Record whisper_model_loader (C : Type) : Type := {
  context : C;
  read : C -> Z -> (Z * list byte) * C;
  eof : C -> bool * C;
  close : C -> C
}.
Arguments context {C}.
Arguments read {C}.
Arguments eof {C}.
Arguments close {C}.

(** The engine entry point the asset path uses, and the default context
    parameters it is given. *)
Class EngineInit (C P : Type) : Type := {
  whisper_context_default_params : P;
  whisper_init_with_params : whisper_model_loader C -> P -> Z
}.

End Whisper.

(** ** Loading from an APK asset *)

Module AssetLoader.
Import Whisper.

Inductive asset_mode : Set :=
| AASSET_MODE_UNKNOWN
| AASSET_MODE_RANDOM
| AASSET_MODE_STREAMING
| AASSET_MODE_BUFFER.

(** The NDK asset API: [J] is the Java [AssetManager] reference, [M] the
    native manager, [A] an open asset.  [None] is the null pointer. *)
Class AssetApi (J M A : Type) : Type := {
  AAssetManager_fromJava : J -> option M;
  AAssetManager_open : M -> string -> asset_mode -> option A;
  AAsset_read : A -> Z -> (Z * list byte) * A;
  AAsset_getRemainingLength64 : A -> Z * A;
  AAsset_close : A -> A
}.

Inductive init_event : Type :=
| LoadingFromAsset (lvl : log_level) (asset_path : string)
| FailedAssetManager (lvl : log_level)
| FailedOpenAsset (lvl : log_level) (asset_path : string)
| EngineInitWithParams.

Definition is_engine_call (e : init_event) : bool :=
  match e with EngineInitWithParams => true | _ => false end.

Section WithAssets.
Context {J M A P : Type} `{AssetApi J M A} `{EngineInit A P}.

(** [asset_read]: the [int] of [AAsset_read] goes back as [size_t]. *)
Definition asset_read (a : abi) (ctx : A) (read_size : Z)
    : (Z * list byte) * A :=
  let '((n, bytes), ctx') := AAsset_read ctx read_size in
  ((to_size_t a n, bytes), ctx').

Definition asset_is_eof (ctx : A) : bool * A :=
  let '(remaining, ctx') := AAsset_getRemainingLength64 ctx in
  (remaining <=? 0, ctx').

Definition asset_close (ctx : A) : A := AAsset_close ctx.


(** [whisper_init_from_asset]: the engine context pointer ([0] is
    [nullptr]) and what was logged and called on the way. *)
Definition whisper_init_from_asset (a : abi) (assetManager : J)
    (asset_path : string) : Z * list init_event :=
  let log0 := [LoadingFromAsset INFO asset_path] in
  match AAssetManager_fromJava assetManager with
  | None => (0, log0 ++ [FailedAssetManager ERROR])
  | Some asset_manager =>
      match AAssetManager_open asset_manager asset_path AASSET_MODE_STREAMING with
      | None => (0, log0 ++ [FailedOpenAsset WARN asset_path])
      | Some asset =>
          let loader :=
            {| context := asset;
               read := asset_read a;
               eof := asset_is_eof;
               close := asset_close |} in
          (whisper_init_with_params loader whisper_context_default_params,
           log0 ++ [EngineInitWithParams])
      end
  end.

(** [initContextFromAsset]: the path string is borrowed from the Java
    string and released again; the pointer goes back as [jlong]. *)
Definition initContextFromAsset (a : abi) (assetManager : J)
    (asset_path_str : string) : Z * list init_event :=
  let asset_path_chars := asset_path_str in
  let '(context, events) :=
    whisper_init_from_asset a assetManager asset_path_chars in
  (context, events).


(** The origin could not be opened: no manager behind the Java reference,
    or no asset under the path. *)
Definition origin_unopened (assetManager : J) (asset_path : string) : Prop :=
  AAssetManager_fromJava assetManager = None \/
  exists m, AAssetManager_fromJava assetManager = Some m /\
            AAssetManager_open m asset_path AASSET_MODE_STREAMING = None.

Definition engine_calls (events : list init_event) : list init_event :=
  filter is_engine_call events.

End WithAssets.

End AssetLoader.

(** ** An asset bundle in memory

    A bundle is a list of named entries; an open asset is the entry's bytes
    and a read position.  The Java reference may be [null]. *)

Module Bundle.
Import Whisper AssetLoader.

Record open_asset : Set := {
  bytes : list byte;
  position : nat
}.

Definition bundle : Set := list (string * list byte).

Fixpoint lookup (b : bundle) (name : string) : option (list byte) :=
  match b with
  | [] => None
  | (k, v) :: b' => if String.eqb k name then Some v else lookup b' name
  end.

Definition bundle_read (x : open_asset) (count : Z) : (Z * list byte) * open_asset :=
  let rest := skipn (position x) (bytes x) in
  let got := firstn (Z.to_nat count) rest in
  ((Z.of_nat (length got), got),
   {| bytes := bytes x; position := (position x + length got)%nat |}).

#[export] Instance bundle_AssetApi : AssetApi (option bundle) bundle open_asset := {
  AAssetManager_fromJava j := j;
  AAssetManager_open m path _ :=
    match lookup m path with
    | Some d => Some {| bytes := d; position := 0 |}
    | None => None
    end;
  AAsset_read := bundle_read;
  AAsset_getRemainingLength64 x :=
    (Z.of_nat (length (bytes x)) - Z.of_nat (position x), x);
  AAsset_close x := x
}.

(** An engine stand-in that accepts any model and answers a fixed
    non-null pointer. *)
#[export] Instance accepting_EngineInit : EngineInit open_asset unit := {
  whisper_context_default_params := tt;
  whisper_init_with_params _ _ := 4096
}.

(** A bundle with one model file. *)
Definition model_bundle : bundle :=
  [("models/ggml-base.bin"%string, [103; 103; 109; 108])].

End Bundle.

(** ** Single-precision arithmetic

    [float] and [jfloat] are IEEE-754 binary32: the specification floats of
    the standard library at precision 24 and exponent bound 128, with
    round-to-nearest-even operations. *)

Module F32.

Definition prec : Z := 24.
Definition emax : Z := 128.

Definition float : Set := spec_float.

Definition add : float -> float -> float := SFadd prec emax.
Definition mul : float -> float -> float := SFmul prec emax.
Definition div : float -> float -> float := SFdiv prec emax.
Definition opp : float -> float := SFopp.
Definition ltb : float -> float -> bool := SFltb.
Definition leb : float -> float -> bool := SFleb.
Definition eqb : float -> float -> bool := SFeqb.

(** Conversion of an integer operand ([int] to [float]). *)
Definition of_int (n : Z) : float := binary_normalize prec emax n 0 false.

(** A decimal literal [digits / 10^scale] with the [f] suffix: the nearest
    binary32 value.  Both operands are below [2^24], hence exact, and the
    division rounds once. *)
Definition literal (digits : Z) (scale : nat) : float :=
  div (of_int digits) (of_int (10 ^ Z.of_nat scale)).

(** The rational a float stands for (zero for the non-finite ones). *)
Definition exact (x : float) : QArith_base.Q :=
  match x with
  | S754_finite s m e =>
      QArith_base.Qmult (QArith_base.inject_Z (cond_Zopp s (Zpos m)))
                        (QArith_base.Qpower (QArith_base.inject_Z 2) e)
  | _ => QArith_base.inject_Z 0
  end.

Definition is_nan (x : float) : bool :=
  match x with S754_nan => true | _ => false end.

End F32.

(** ** Transcription request *)

Module Transcribe.
Import F32.

Inductive whisper_sampling_strategy : Set :=
| WHISPER_SAMPLING_GREEDY
| WHISPER_SAMPLING_BEAM_SEARCH.

(** [struct whisper_full_params]: the fields the bridge assigns are spelled
    out; [R] stands for the remaining fields of the engine's struct, which
    the bridge leaves as [whisper_full_default_params] filled them. *)
Record whisper_full_params (R : Type) : Type := {
  strategy : whisper_sampling_strategy;
  n_threads : Z;
  offset_ms : Z;
  translate : bool;
  no_context : bool;
  single_segment : bool;
  print_special : bool;
  print_progress : bool;
  print_realtime : bool;
  print_timestamps : bool;
  language : string;
  entropy_thold : float;
  logprob_thold : float;
  no_speech_thold : float;
  remaining_fields : R
}.
Arguments strategy {R}.
Arguments n_threads {R}.
Arguments offset_ms {R}.
Arguments translate {R}.
Arguments no_context {R}.
Arguments single_segment {R}.
Arguments print_special {R}.
Arguments print_progress {R}.
Arguments print_realtime {R}.
Arguments print_timestamps {R}.
Arguments language {R}.
Arguments entropy_thold {R}.
Arguments logprob_thold {R}.
Arguments no_speech_thold {R}.
Arguments remaining_fields {R}.

(** The engine calls [fullTranscribe] makes, on an engine state [W]. *)
Class Engine (W R : Type) : Type := {
  whisper_full_default_params : whisper_sampling_strategy -> whisper_full_params R;
  whisper_reset_timings : W -> W;
  whisper_full : W -> whisper_full_params R -> list float -> Z -> Z * W;
  whisper_full_n_segments : W -> Z;
  whisper_full_get_segment_text : W -> Z -> string;
  whisper_print_timings : W -> W
}.

(** *** The borrowed Java [float[]]

    [GetFloatArrayElements] hands out either a copy of the array or the
    pinned array itself (the VM decides); [ReleaseFloatArrayElements]
    copies a copy back unless the mode is [JNI_ABORT]. *)

Record float_elements : Set := {
  elements : list float;
  is_copy : bool
}.

Inductive release_mode : Set := COPY_BACK_AND_FREE | JNI_COMMIT | JNI_ABORT.

Definition GetFloatArrayElements (array : list float) (vm_copies : bool)
    : float_elements :=
  {| elements := array; is_copy := vm_copies |}.

Definition GetArrayLength (array : list float) : Z :=
  Z.of_nat (length array).

(** A [ReleaseFloatArrayElements] call: the elements handed back and the
    mode they are released with. *)
Record release_call : Set := {
  elems_released : float_elements;
  mode_used : release_mode
}.

(** The Java array after the release. *)
Definition ReleaseFloatArrayElements (array : list float)
    (elems : float_elements) (mode : release_mode) : list float :=
  if is_copy elems then
    match mode with
    | JNI_ABORT => array
    | COPY_BACK_AND_FREE | JNI_COMMIT => elements elems
    end
  else elements elems.

(** *** Diagnostics: the loop of lines 205-213 *)

Record audio_stats : Set := {
  min_val : float;
  max_val : float;
  sum_abs : float;
  non_zero : Z
}.

Definition stats_init : audio_stats :=
  {| min_val := of_int 0; max_val := of_int 0; sum_abs := of_int 0;
     non_zero := 0 |}.

(** One iteration, for the sample [v = audio_data_arr[i]]. *)
Definition stats_step (st : audio_stats) (v : float) : audio_stats :=
  {| min_val := if ltb v (min_val st) then v else min_val st;
     max_val := if ltb (max_val st) v then v else max_val st;
     sum_abs := add (sum_abs st) (if leb (of_int 0) v then v else opp v);
     non_zero := if negb (eqb v (of_int 0)) then non_zero st + 1
                 else non_zero st |}.

Definition audio_analysis (samples : list float) : audio_stats :=
  fold_left stats_step samples stats_init.

(** [avg_abs = sum_abs / audio_data_length]. *)
Definition avg_abs (samples : list float) : float :=
  div (sum_abs (audio_analysis samples)) (of_int (GetArrayLength samples)).

(** The threshold [0.001f] of line 222. *)
Definition silence_threshold : float := literal 1 3.

Definition appears_silent (samples : list float) : bool :=
  ltb (avg_abs samples) silence_threshold.

(** *** What the call emits *)

Inductive message : Set :=
| AudioDataAnalysis
| Samples (n : Z) (seconds : float)
| Range (lo hi : float)
| AvgAbsolute (avg : float)
| NonZero (n : Z) (percent : float)
| AppearsSilent (avg : float)
| StartingTranscription (threads : Z)
| FailedToRun
| TranscriptionComplete (n_segments : Z)
| Segment (i : Z) (text : string).

Inductive event (R : Type) : Type :=
| Log (lvl : log_level) (msg : message)
| ResetTimings
| Full (params : whisper_full_params R) (samples : list float) (n_samples : Z)
| PrintTimings.
Arguments Log {R}.
Arguments ResetTimings {R}.
Arguments Full {R}.
Arguments PrintTimings {R}.

Record transcribe_result (W R : Type) : Type := {
  engine_after : W;
  release : release_call;         (* the release of line 260 *)
  audio_after : list float;       (* the caller's Java array afterwards *)
  trace : list (event R)
}.
Arguments engine_after {W R}.
Arguments release {W R}.
Arguments audio_after {W R}.
Arguments trace {W R}.

Section WithEngine.
Context {W R : Type} `{Engine W R}.

(** Lines 227-242: the parameter set. *)
Definition transcribe_params (num_threads : Z) : whisper_full_params R :=
  let params := whisper_full_default_params WHISPER_SAMPLING_GREEDY in
  {| strategy := strategy params;
     print_realtime := false;
     print_progress := false;
     print_timestamps := true;
     print_special := false;
     translate := false;
     language := "en";
     n_threads := num_threads;
     offset_ms := 0;
     no_context := true;
     single_segment := false;
     entropy_thold := literal 28 1;
     logprob_thold := opp (literal 15 1);
     no_speech_thold := literal 3 1;
     remaining_fields := remaining_fields params |}.

(** Lines 251-257: the segment lines, at most five. *)
Definition segment_lines (context : W) (n_segments : Z) : list (event R) :=
  map (fun i => Log INFO (Segment (Z.of_nat i)
                            (whisper_full_get_segment_text context (Z.of_nat i))))
      (seq 0 (Z.to_nat (Z.min n_segments 5))).

(** [fullTranscribe]. *)
Definition fullTranscribe (context : W) (num_threads : Z)
    (audio_data : list float) (vm_copies : bool) : transcribe_result W R :=
  let elems := GetFloatArrayElements audio_data vm_copies in
  let audio_data_arr := elements elems in
  let audio_data_length := GetArrayLength audio_data in
  let st := audio_analysis audio_data_arr in
  let avg := div (sum_abs st) (of_int audio_data_length) in
  let analysis :=
    [ Log INFO AudioDataAnalysis;
      Log INFO (Samples audio_data_length
                  (div (of_int audio_data_length) (of_int 16000)));
      Log INFO (Range (min_val st) (max_val st));
      Log INFO (AvgAbsolute avg);
      Log INFO (NonZero (non_zero st)
                  (div (mul (of_int (non_zero st)) (of_int 100))
                       (of_int audio_data_length))) ] in
  let silent :=
    if ltb avg silence_threshold then [Log WARN (AppearsSilent avg)] else [] in
  let params := transcribe_params num_threads in
  let c1 := whisper_reset_timings context in
  let '(status, c2) := whisper_full c1 params audio_data_arr audio_data_length in
  let '(c3, outcome) :=
    if negb (status =? 0) then (c2, [Log ERROR FailedToRun])
    else
      let n_segments := whisper_full_n_segments c2 in
      (whisper_print_timings c2,
       [Log INFO (TranscriptionComplete n_segments)]
         ++ segment_lines c2 n_segments ++ [PrintTimings]) in
  let line_260 := {| elems_released := elems; mode_used := JNI_ABORT |} in
  {| engine_after := c3;
     release := line_260;
     audio_after := ReleaseFloatArrayElements audio_data
                      (elems_released line_260) (mode_used line_260);
     trace := analysis ++ silent
              ++ [ResetTimings; Log INFO (StartingTranscription num_threads);
                  Full params audio_data_arr audio_data_length]
              ++ outcome |}.

End WithEngine.

(** *** Reference quantities for the diagnostics

    The mathematical counterparts the diagnostics are compared with:
    the order of binary32 values, the minimum and maximum of a buffer, the
    exact mean of the absolute values, the number of non-zero samples. *)

(** A key whose lexicographic order is the order of the non-NaN floats. *)
Definition rank (x : float) : Z * Z * Z :=
  match x with
  | S754_infinity true => (-2, 0, 0)
  | S754_finite true m e => (-1, - e, - Zpos m)
  | S754_zero _ => (0, 0, 0)
  | S754_nan => (0, 0, 0)
  | S754_finite false m e => (1, e, Zpos m)
  | S754_infinity false => (2, 0, 0)
  end.

Definition lex_lt (a b : Z * Z * Z) : Prop :=
  let '(a1, a2, a3) := a in
  let '(b1, b2, b3) := b in
  a1 < b1 \/ (a1 = b1 /\ (a2 < b2 \/ (a2 = b2 /\ a3 < b3))).

(** [m] is the least sample of the buffer: some sample compares equal to
    it and none compares below it. *)
Definition is_minimum (m : float) (samples : list float) : Prop :=
  (exists v, In v samples /\ eqb v m = true) /\
  (forall v, In v samples -> ltb v m = false).

Definition is_maximum (m : float) (samples : list float) : Prop :=
  (exists v, In v samples /\ eqb v m = true) /\
  (forall v, In v samples -> ltb m v = false).

(** The samples for which [v != 0] holds. *)
Definition count_non_zero (samples : list float) : Z :=
  Z.of_nat (length (filter (fun v => negb (eqb v (of_int 0))) samples)).

(** [v >= 0 ? v : -v]. *)
Definition magnitude (v : float) : float :=
  if leb (of_int 0) v then v else opp v.

(** The running single-precision sum of the magnitudes, left to right. *)
Definition running_sum (samples : list float) : float :=
  fold_left (fun s v => add s (magnitude v)) samples (of_int 0).

(** The mean of the absolute values as a rational number. *)
Definition mean_abs_exact (samples : list float) : Q :=
  Qdiv (fold_right (fun v acc => Qplus (Qabs (exact v)) acc) (inject_Z 0) samples)
       (inject_Z (Z.of_nat (length samples))).

(** Two samples whose sum is rounded up: [8589934 * 2^-32] (just under
    0.002) and [9 * 2^-36]. *)
Definition rounding_buffer : list float :=
  [S754_finite false 8589934 (-32); S754_finite false 9437184 (-56)].

(** One sample of value 0.5. *)
Definition positive_buffer : list float := [literal 5 1].

Definition is_full {R : Type} (e : event R) : bool :=
  match e with Full _ _ _ => true | _ => false end.

Definition is_silence_warning {R : Type} (e : event R) : bool :=
  match e with Log WARN (AppearsSilent _) => true | _ => false end.

(** The engine's transcription calls / the silence warnings of a trace. *)
Definition full_calls {R : Type} (t : list (event R)) : list (event R) :=
  filter is_full t.

Definition silence_warnings {R : Type} (t : list (event R)) : list (event R) :=
  filter is_silence_warning t.

(** The five analysis lines. *)
Definition analysis_lines {R : Type} (audio_data : list float)
    : list (event R) :=
  let st := audio_analysis audio_data in
  let n := GetArrayLength audio_data in
  [ Log INFO AudioDataAnalysis;
    Log INFO (Samples n (div (of_int n) (of_int 16000)));
    Log INFO (Range (min_val st) (max_val st));
    Log INFO (AvgAbsolute (avg_abs audio_data));
    Log INFO (NonZero (non_zero st)
                (div (mul (of_int (non_zero st)) (of_int 100)) (of_int n))) ].

End Transcribe.

(** ** Rounding to binary32, in integers

    Quantities used to follow the single-precision sum and quotient of the
    diagnostics through their roundings. *)

Module Rounding.
Import F32.

(** The result of rounding, from the rounded mantissa [m1 <= 2^24] and the
    exponent it was rounded at. *)
Definition round_result (m1 E : Z) : float :=
  if m1 <? 2 ^ 24 then
    match m1 with
    | Zpos p => if E <=? 104 then S754_finite false p E else S754_infinity false
    | _ => S754_zero false
    end
  else if E + 1 <=? 104 then S754_finite false 8388608 (E + 1)
       else S754_infinity false.

(** The value of a non-negative finite float in units of [2^-149]. *)
Definition scaled (x : float) : Z :=
  match x with
  | S754_finite false m e => Z.pos m * 2 ^ (e + 149)
  | _ => 0
  end.

Definition nonneg_finite (x : float) : Prop :=
  match x with
  | S754_zero _ => True
  | S754_finite false _ e => -149 <= e
  | _ => False
  end.

(** A well-formed binary32 sample within [+/-0.0005f]. *)
Definition quiet_sample (v : float) : Prop :=
  valid_binary 24 128 v = true /\
  leb (opp (literal 5 4)) v = true /\ leb v (literal 5 4) = true.

(** What the running sum of [k] quiet magnitudes cannot exceed:
    [min(k, 2^24) * 2^-10], in units of [2^-149]. *)
Definition sum_bound (k : Z) : Z := Z.min k (2 ^ 24) * 2 ^ 139.

End Rounding.

(** A stand-in engine for concrete runs: the state counts the calls made,
    [whisper_full] succeeds and leaves two segments. *)

Module StubEngine.
Import F32 Transcribe.

#[export] Instance counting_Engine : Engine Z unit := {
  whisper_full_default_params s :=
    {| strategy := s; n_threads := 4; offset_ms := 0; translate := false;
       no_context := true; single_segment := false; print_special := false;
       print_progress := true; print_realtime := false;
       print_timestamps := true; language := "en";
       entropy_thold := literal 24 1; logprob_thold := opp (literal 10 1);
       no_speech_thold := literal 6 1; remaining_fields := tt |};
  whisper_reset_timings w := w;
  whisper_full w _ _ _ := (0, w + 1);
  whisper_full_n_segments _ := 2;
  whisper_full_get_segment_text _ _ := "text"%string;
  whisper_print_timings w := w
}.

End StubEngine.

(** ** A run of read callbacks

    The engine pulls the model through repeated [read] calls on the same
    context; [read_requests] is such a run, for the requested sizes in
    order.  It stops with [None] where a call has no defined behaviour. *)

Module StreamSession.
Import Jni StreamLoader.

Section WithStream.
Context {St : Type} `{InputStream St}.

Fixpoint read_requests (a : abi) (ctx : input_stream_context St)
    (sizes : list Z)
    : option (list (read_result St) * input_stream_context St) :=
  match sizes with
  | [] => Some ([], ctx)
  | read_size :: rest =>
      match input_stream_read a ctx read_size with
      | None => None
      | Some r =>
          match read_requests a (ctx_after r) rest with
          | None => None
          | Some (rs, ctx') => Some (r :: rs, ctx')
          end
      end
  end.

(** The byte counts handed back over a run, added up. *)
Definition total_returned (rs : list (read_result St)) : Z :=
  fold_right (fun r acc => returned r + acc) 0 rs.

End WithStream.

End StreamSession.

(** ** Releasing a context

    [freeContext]: the [jlong] is cast back to a pointer (its low [w] bits)
    and the engine's [whisper_free] is called unless the pointer is null. *)

Module Lifecycle.

Inductive free_event : Set :=
| FreeingContext (lvl : log_level)
| WhisperFree (context : Z).

Definition freeContext (a : abi) (context_ptr : Z) : list free_event :=
  let context := to_size_t a context_ptr in
  if context =? 0 then [] else [FreeingContext INFO; WhisperFree context].

End Lifecycle.

(** ** Reading a transcription trace *)

Module TraceObservers.
Import F32 Transcribe.

Definition is_segment {R : Type} (e : event R) : bool :=
  match e with Log _ (Segment _ _) => true | _ => false end.

(** The segment lines of a trace, in order. *)
Definition segment_logs {R : Type} (t : list (event R)) : list (event R) :=
  filter is_segment t.

Definition is_engine_event {R : Type} (e : event R) : bool :=
  match e with Log _ _ => false | _ => true end.

(** The engine calls of a trace, in order. *)
Definition engine_events {R : Type} (t : list (event R)) : list (event R) :=
  filter is_engine_event t.

Definition is_error {R : Type} (e : event R) : bool :=
  match e with Log ERROR _ => true | _ => false end.

(** The error lines of a trace. *)
Definition error_logs {R : Type} (t : list (event R)) : list (event R) :=
  filter is_error t.

(** Not below zero: a zero, a positive finite value, plus infinity, or
    NaN. *)
Definition not_negative (x : float) : Prop :=
  match x with
  | S754_zero _ | S754_nan => True
  | S754_finite s _ _ | S754_infinity s => s = false
  end.

End TraceObservers.

(** * Properties *)

(** ** Integer conversions *)

Module Conversions.

Lemma SIZE_MODULUS_cases (a : abi) :
  SIZE_MODULUS a = 2 ^ 32 \/ SIZE_MODULUS a = 2 ^ 64.
Proof. destruct a; [left | right]; reflexivity. Qed.

Lemma to_size_t_nonneg_jint (a : abi) (z : Z) :
  0 <= z <= INT_MAX -> to_size_t a z = z.
Proof.
  unfold INT_MAX, to_size_t. intros Hz.
  apply Z.mod_small. destruct (SIZE_MODULUS_cases a) as [-> | ->]; lia.
Qed.

Lemma to_size_t_negative_jint (a : abi) (z : Z) :
  INT_MIN <= z < 0 -> to_size_t a z = SIZE_MODULUS a + z.
Proof.
  unfold INT_MIN, to_size_t. intros Hz.
  symmetry. apply (Z.mod_unique _ _ (-1)).
  - left. destruct (SIZE_MODULUS_cases a) as [-> | ->]; lia.
  - lia.
Qed.

Lemma to_jint_in_range (z : Z) : is_jint z -> to_jint z = z.
Proof.
  unfold is_jint, INT_MIN, INT_MAX, to_jint. intros Hz.
  rewrite Z.mod_small; lia.
Qed.

Lemma to_size_t_is_size_t (a : abi) (z : Z) : is_size_t a (to_size_t a z).
Proof.
  unfold is_size_t, to_size_t. apply Z.mod_pos_bound.
  destruct (SIZE_MODULUS_cases a) as [-> | ->]; lia.
Qed.

End Conversions.

(** ** The stream loader *)

Module StreamLoaderFacts.
Import Jni StreamLoader Conversions Scripted.

(** With a non-negative [available], line 42 is the minimum. *)
Lemma size_to_copy_nonnegative_available (a : abi) (read_size avail_size : Z) :
  is_size_t a read_size -> 0 <= avail_size <= INT_MAX ->
  size_to_copy a read_size avail_size = Z.min read_size avail_size.
Proof.
  intros Hrs Hav. unfold size_to_copy.
  rewrite (to_size_t_nonneg_jint a avail_size Hav).
  destruct (Z.ltb_spec read_size avail_size) as [Hlt | Hge].
  - rewrite Z.min_l by lia. apply to_jint_in_range.
    unfold is_jint, INT_MIN, INT_MAX in *. destruct Hrs. lia.
  - rewrite Z.min_r by lia. reflexivity.
Qed.

(** With a negative [available] and a request that fits a [jint], line 42
    compares against [2^w + available] and keeps the request. *)
Lemma size_to_copy_negative_available (a : abi) (read_size avail_size : Z) :
  0 < read_size <= INT_MAX -> INT_MIN <= avail_size < 0 ->
  read_size < to_size_t a avail_size /\
  size_to_copy a read_size avail_size = read_size.
Proof.
  intros Hrs Hav. unfold size_to_copy.
  rewrite (to_size_t_negative_jint a avail_size Hav).
  assert (Hlt : read_size < SIZE_MODULUS a + avail_size).
  { unfold INT_MAX, INT_MIN in *.
    destruct (SIZE_MODULUS_cases a) as [-> | ->]; lia. }
  split; [exact Hlt |].
  apply Z.ltb_lt in Hlt. rewrite Hlt.
  apply to_jint_in_range. unfold is_jint, INT_MIN, INT_MAX in *. lia.
Qed.

Lemma NewByteArray_nonneg (n : Z) :
  0 <= n -> NewByteArray n = Some (repeat 0 (Z.to_nat n)).
Proof.
  intros Hn. unfold NewByteArray.
  destruct (Z.ltb_spec n 0); [lia | reflexivity].
Qed.

Section Reads.
Context {St : Type} `{InputStream St}.

(** The shape of a read whose [size_to_copy] is not negative. *)
Lemma input_stream_read_defined (a : abi) (ctx : input_stream_context St)
    (read_size : Z) :
  let avail := fst (available (input_stream ctx)) in
  let size := size_to_copy a read_size avail in
  0 <= size <= INT_MAX ->
  exists r,
    input_stream_read a ctx read_size = Some r /\
    returned r = size /\ requested_len r = size /\ copied r = size /\
    offset (ctx_after r) = to_size_t a (offset ctx + size) /\
    n_read r = fst (fst (read (snd (available (input_stream ctx))) 0 size)) /\
    (n_read r <> size -> logged r = [PartialRead read_size size (n_read r)]).
Proof.
  intros avail size Hsize. subst avail size.
  unfold input_stream_read.
  destruct (available (input_stream ctx)) as [av s1]. cbn [fst snd] in *.
  rewrite (NewByteArray_nonneg _ (proj1 Hsize)).
  destruct (read s1 0 (size_to_copy a read_size av)) as [[n stored] s2].
  cbn [fst snd].
  eexists. split; [reflexivity |]. cbn.
  rewrite (to_size_t_nonneg_jint a _ Hsize).
  repeat split; try reflexivity.
  intros Hne.
  assert (Hneq : (size_to_copy a read_size av =? n) = false)
    by (apply Z.eqb_neq; congruence).
  rewrite Hneq, orb_true_r. reflexivity.
Qed.
End Reads.

(** C1 (the clamp invariant), where the code departs from it: with
    [available() = -1] and a request of 10 bytes the callback asks the
    stream for 10 bytes, copies 10 bytes to the engine's buffer, returns 10
    and advances the offset by 10, although no byte was reported
    available and the stream delivered none. *)
Theorem input_stream_read_unclamped_on_negative_available :
  let ctx := {| offset := 0; input_stream := exhausted_stream |} in
  fst (available (input_stream ctx)) = -1 /\
  exists r,
    input_stream_read LP64 ctx 10 = Some r /\
    requested_len r = 10 /\ copied r = 10 /\ returned r = 10 /\
    n_read r = -1 /\
    output r = repeat 0 10%nat /\
    offset (ctx_after r) = 10 /\
    copied r > fst (available (input_stream ctx)).
Proof.
  cbn zeta. split; [reflexivity |].
  eexists. split; [vm_compute; reflexivity |].
  cbn. repeat split; reflexivity.
Qed.

(** C9: when [available()] is not negative, the value returned and the
    advance of the offset (in [size_t] arithmetic) are both
    [min(read_size, available)], whatever count the stream's [read]
    answered; a differing count only adds the "Partial read" log line.
    And the returned count can exceed what the stream delivered. *)
Theorem input_stream_read_returns_clamped_size :
  (forall (St : Type) (Hst : InputStream St) (a : abi)
          (ctx : input_stream_context St) (read_size : Z),
      let avail := fst (available (input_stream ctx)) in
      let clamped := Z.min read_size avail in
      is_size_t a read_size -> 0 <= avail <= INT_MAX ->
      exists r,
        input_stream_read a ctx read_size = Some r /\
        returned r = clamped /\
        offset (ctx_after r) = to_size_t a (offset ctx + clamped) /\
        (is_size_t a (offset ctx + clamped) ->
         offset (ctx_after r) - offset ctx = clamped) /\
        (n_read r <> clamped ->
         logged r = [PartialRead read_size clamped (n_read r)])) /\
  (exists r,
      input_stream_read LP64 {| offset := 0; input_stream := trickling_stream |} 10
        = Some r /\
      returned r = 10 /\ n_read r = 3 /\ offset (ctx_after r) = 10 /\
      logged r = [PartialRead 10 10 3]).
Proof.
  split.
  - intros St Hst a ctx read_size avail clamped Hrs Hav.
    assert (Hsize : size_to_copy a read_size avail = clamped)
      by (apply size_to_copy_nonnegative_available; assumption).
    assert (Hrange : 0 <= size_to_copy a read_size avail <= INT_MAX).
    { rewrite Hsize. unfold clamped. destruct Hrs. lia. }
    destruct (input_stream_read_defined a ctx read_size Hrange)
      as (r & Hr & Hret & _ & _ & Hoff & _ & Hlog).
    fold avail in Hret, Hoff, Hlog. rewrite Hsize in Hret, Hoff, Hlog.
    exists r. repeat split; try assumption.
    intros Hfit. rewrite Hoff. unfold to_size_t.
    rewrite Z.mod_small by exact Hfit. lia.
  - eexists. split; [vm_compute; reflexivity |].
    cbn. repeat split; reflexivity.
Qed.

Lemma input_stream_read_returns_clamped_size_witness :
  is_size_t ILP32 7 /\ 0 <= 10 <= INT_MAX /\
  exists r,
    input_stream_read ILP32 {| offset := 5; input_stream := trickling_stream |} 7
      = Some r /\
    returned r = 7 /\ offset (ctx_after r) = 12.
Proof.
  assert (Hrs : is_size_t ILP32 7) by (unfold is_size_t; cbn; lia).
  assert (Hav : 0 <= 10 <= INT_MAX) by (unfold INT_MAX; lia).
  split; [exact Hrs | split; [exact Hav |]].
  destruct (proj1 input_stream_read_returns_clamped_size
              scripted_stream scripted_InputStream ILP32
              {| offset := 5; input_stream := trickling_stream |} 7 Hrs Hav)
    as (r & Hr & Hret & Hoff & _).
  exists r. split; [exact Hr | split; [exact Hret | exact Hoff]].
Defined.

(** C10 as stated fails for large requests: a request of [2^31] bytes with
    [available() = -1] is below the converted bound, but [(jint)read_size]
    is [-2^31], not the request; and a request of [SIZE_MAX] is not below
    the converted bound at all, so [size_to_copy] is [-1]. *)
Lemma size_to_copy_not_full_request :
  (is_size_t LP64 (2 ^ 31) /\ 0 < 2 ^ 31 /\ INT_MIN <= -1 < 0 /\
   size_to_copy LP64 (2 ^ 31) (-1) = - 2 ^ 31 /\
   size_to_copy LP64 (2 ^ 31) (-1) <> 2 ^ 31 /\
   input_stream_read LP64 {| offset := 0; input_stream := exhausted_stream |}
     (2 ^ 31) = None) /\
  (is_size_t LP64 (SIZE_MAX LP64) /\ 0 < SIZE_MAX LP64 /\
   ~ SIZE_MAX LP64 < to_size_t LP64 (-1) /\
   size_to_copy LP64 (SIZE_MAX LP64) (-1) = -1).
Proof.
  unfold is_size_t, INT_MIN. repeat split; try (vm_compute; congruence).
Qed.

(** C10, amended: with a strictly negative [available()] and a positive
    request of at most [INT_MAX] bytes, the comparison is made against
    [2^w + available], which exceeds the request, so nothing is clamped:
    the stream is asked for, and the callback copies and returns, the full
    request. *)
Theorem input_stream_read_negative_available_no_clamp
    (St : Type) (Hst : InputStream St) (a : abi)
    (ctx : input_stream_context St) (read_size : Z) :
  let avail := fst (available (input_stream ctx)) in
  INT_MIN <= avail < 0 -> 0 < read_size <= INT_MAX ->
  to_size_t a avail = SIZE_MODULUS a + avail /\
  read_size < to_size_t a avail /\
  size_to_copy a read_size avail = read_size /\
  exists r,
    input_stream_read a ctx read_size = Some r /\
    requested_len r = read_size /\ copied r = read_size /\
    returned r = read_size.
Proof.
  intros avail Hav Hrs.
  destruct (size_to_copy_negative_available a read_size avail Hrs Hav)
    as [Hlt Hsize].
  split; [apply to_size_t_negative_jint; exact Hav |].
  split; [exact Hlt | split; [exact Hsize |]].
  assert (Hrange : 0 <= size_to_copy a read_size avail <= INT_MAX)
    by (rewrite Hsize; lia).
  destruct (input_stream_read_defined a ctx read_size Hrange)
    as (r & Hr & Hret & Hreq & Hcp & _).
  fold avail in Hret, Hreq, Hcp. rewrite Hsize in Hret, Hreq, Hcp.
  exists r. repeat split; assumption.
Qed.

Lemma input_stream_read_negative_available_no_clamp_witness :
  INT_MIN <= -1 < 0 /\ 0 < 10 <= INT_MAX /\
  size_to_copy LP64 10 (-1) = 10.
Proof.
  assert (Hav : INT_MIN <= -1 < 0) by (unfold INT_MIN; lia).
  assert (Hrs : 0 < 10 <= INT_MAX) by (unfold INT_MAX; lia).
  split; [exact Hav | split; [exact Hrs |]].
  exact (proj1 (proj2 (proj2
    (input_stream_read_negative_available_no_clamp
       scripted_stream scripted_InputStream LP64
       {| offset := 0; input_stream := exhausted_stream |} 10 Hav Hrs)))).
Defined.

End StreamLoaderFacts.

(** ** End-of-data predicates *)

Module EofFacts.
Import Jni StreamLoader Whisper AssetLoader Scripted Arriving Bundle.

Section Observers.
Context {St J M A : Type} `{InputStream St} `{AssetApi J M A}.






End Observers.



(** C7 as stated fails where the stream itself moves on between two
    calls: on [late_stream] the first [eof] answers [true] (nothing is
    buffered), the second, with no [read] in between, answers [false] (the
    five bytes have come in); no byte was consumed and the offset is
    unchanged.  The answer follows [available()], which is not an observer
    of this stream. *)
Theorem eof_answers_follow_available :
  let ctx := {| offset := 0; input_stream := late_stream |} in
  fst (eof_calls 2 ctx) = [true; false] /\
  offset (snd (eof_calls 2 ctx)) = 0 /\
  buffered (input_stream (snd (eof_calls 2 ctx))) = [1; 2; 3; 4; 5] /\
  ~ @available_observes arriving_stream arriving_InputStream.
Proof.
  cbn zeta. split; [reflexivity | split; [reflexivity | split; [reflexivity |]]].
  intros Hobs. specialize (Hobs late_stream). discriminate.
Qed.

End EofFacts.

(** ** Initialisation from an asset *)

Module AssetLoaderFacts.
Import Whisper AssetLoader Bundle.

Section Init.
Context {J M A P : Type} `{AssetApi J M A} `{EngineInit A P}.

Lemma whisper_init_from_asset_unopened (a : abi) (assetManager : J)
    (asset_path : string) :
  origin_unopened assetManager asset_path ->
  fst (whisper_init_from_asset a assetManager asset_path) = 0 /\
  engine_calls (snd (whisper_init_from_asset a assetManager asset_path)) = [].
Proof.
  unfold whisper_init_from_asset.
  intros [Hnone | (m & Hsome & Hopen)].
  - rewrite Hnone. split; reflexivity.
  - rewrite Hsome, Hopen. split; reflexivity.
Qed.

(** When the origin opens, the engine is entered exactly once, with a
    loader made of the three asset callbacks. *)
Lemma whisper_init_from_asset_opened (a : abi) (assetManager : J)
    (asset_path : string) (m : M) (asset : A) :
  AAssetManager_fromJava assetManager = Some m ->
  AAssetManager_open m asset_path AASSET_MODE_STREAMING = Some asset ->
  fst (whisper_init_from_asset a assetManager asset_path)
    = whisper_init_with_params
        {| context := asset; read := asset_read a; eof := asset_is_eof;
           close := asset_close |} whisper_context_default_params /\
  engine_calls (snd (whisper_init_from_asset a assetManager asset_path))
    = [EngineInitWithParams].
Proof.
  intros Hsome Hopen. unfold whisper_init_from_asset.
  rewrite Hsome, Hopen. split; reflexivity.
Qed.

End Init.

(** C6: when the asset origin cannot be opened, [initContextFromAsset]
    returns the null handle and makes no engine call. *)
Theorem initContextFromAsset_unopened_returns_null
    (J M A P : Type) (Has : AssetApi J M A) (Heng : EngineInit A P)
    (a : abi) (assetManager : J) (asset_path_str : string) :
  origin_unopened assetManager asset_path_str ->
  fst (initContextFromAsset a assetManager asset_path_str) = 0 /\
  engine_calls (snd (initContextFromAsset a assetManager asset_path_str)) = [] /\
  ~ In EngineInitWithParams
       (snd (initContextFromAsset a assetManager asset_path_str)).
Proof.
  intros Hun.
  destruct (whisper_init_from_asset_unopened a assetManager asset_path_str Hun)
    as [Hnull Hcalls].
  unfold initContextFromAsset.
  destruct (whisper_init_from_asset a assetManager asset_path_str)
    as [context events]. cbn [fst snd] in *.
  split; [exact Hnull | split; [exact Hcalls |]].
  intros Hin.
  assert (Hf : In EngineInitWithParams (engine_calls events))
    by (apply filter_In; split; [exact Hin | reflexivity]).
  rewrite Hcalls in Hf. exact Hf.
Qed.

Lemma initContextFromAsset_unopened_returns_null_witness :
  origin_unopened (Some model_bundle) "models/missing.bin" /\
  fst (initContextFromAsset LP64 (Some model_bundle) "models/missing.bin") = 0.
Proof.
  assert (Hun : origin_unopened (Some model_bundle) "models/missing.bin").
  { right. exists model_bundle. split; reflexivity. }
  split; [exact Hun |].
  exact (proj1 (initContextFromAsset_unopened_returns_null
                  (option Bundle.bundle) Bundle.bundle Bundle.open_asset unit
                  Bundle.bundle_AssetApi Bundle.accepting_EngineInit
                  LP64 (Some model_bundle) "models/missing.bin" Hun)).
Defined.

End AssetLoaderFacts.

(** ** Order of binary32 values *)

Module F32Facts.
Import F32 Transcribe.

Ltac split_rank :=
  repeat match goal with
         | |- _ <-> _ => split; intros
         | H : _ /\ _ |- _ => destruct H
         | H : _ \/ _ |- _ => destruct H
         | |- _ /\ _ => split
         end;
  try reflexivity; try discriminate; try lia; try (exfalso; lia).

Lemma ltb_rank (x y : float) :
  ltb x y = true <->
  is_nan x = false /\ is_nan y = false /\ lex_lt (rank x) (rank y).
Proof.
  unfold ltb, SFltb, SFcompare, lex_lt.
  destruct x as [sx | sx | | sx mx ex], y as [sy | sy | | sy my ey];
    try destruct sx; try destruct sy; cbn [rank is_nan];
    try solve [split_rank].
  - change (Pos.compare_cont Eq mx my) with (Pos.compare mx my).
    destruct (Z.compare_spec ex ey); destruct (Pos.compare_spec mx my);
      cbn [CompOpp]; split_rank.
  - change (Pos.compare_cont Eq mx my) with (Pos.compare mx my).
    destruct (Z.compare_spec ex ey); destruct (Pos.compare_spec mx my);
      cbn [CompOpp]; split_rank.
Qed.

Lemma leb_rank (x y : float) :
  leb x y = true <->
  is_nan x = false /\ is_nan y = false /\
  (lex_lt (rank x) (rank y) \/ rank x = rank y).
Proof.
  unfold leb, SFleb, SFcompare, lex_lt.
  destruct x as [sx | sx | | sx mx ex], y as [sy | sy | | sy my ey];
    try destruct sx; try destruct sy; cbn [rank is_nan];
    try solve [split_rank; try (left; lia); try (right; reflexivity);
               try congruence].
  - change (Pos.compare_cont Eq mx my) with (Pos.compare mx my).
    destruct (Z.compare_spec ex ey); destruct (Pos.compare_spec mx my);
      cbn [CompOpp]; split_rank;
      try (left; lia); try (right; congruence);
      try (exfalso; match goal with E : (_, _, _) = (_, _, _) |- _ =>
                            injection E; intros; lia end).
  - change (Pos.compare_cont Eq mx my) with (Pos.compare mx my).
    destruct (Z.compare_spec ex ey); destruct (Pos.compare_spec mx my);
      cbn [CompOpp]; split_rank;
      try (left; lia); try (right; congruence);
      try (exfalso; match goal with E : (_, _, _) = (_, _, _) |- _ =>
                            injection E; intros; lia end).
Qed.

Lemma eqb_rank (x y : float) :
  eqb x y = true <->
  is_nan x = false /\ is_nan y = false /\ rank x = rank y.
Proof.
  unfold eqb, SFeqb, SFcompare.
  destruct x as [sx | sx | | sx mx ex], y as [sy | sy | | sy my ey];
    try destruct sx; try destruct sy; cbn [rank is_nan];
    try solve [split_rank; congruence].
  - change (Pos.compare_cont Eq mx my) with (Pos.compare mx my).
    destruct (Z.compare_spec ex ey); destruct (Pos.compare_spec mx my);
      cbn [CompOpp]; split_rank; try congruence;
      try (exfalso; match goal with E : (_, _, _) = (_, _, _) |- _ =>
                            injection E; intros; lia end).
  - change (Pos.compare_cont Eq mx my) with (Pos.compare mx my).
    destruct (Z.compare_spec ex ey); destruct (Pos.compare_spec mx my);
      cbn [CompOpp]; split_rank; try congruence;
      try (exfalso; match goal with E : (_, _, _) = (_, _, _) |- _ =>
                            injection E; intros; lia end).
Qed.

Lemma lex_lt_trans (a b c : Z * Z * Z) :
  lex_lt a b -> lex_lt b c -> lex_lt a c.
Proof.
  destruct a as [[a1 a2] a3], b as [[b1 b2] b3], c as [[c1 c2] c3].
  unfold lex_lt. lia.
Qed.

Lemma lex_lt_irrefl (a : Z * Z * Z) : ~ lex_lt a a.
Proof. destruct a as [[a1 a2] a3]. unfold lex_lt. lia. Qed.

Lemma ltb_trans (x y z : float) :
  ltb x y = true -> ltb y z = true -> ltb x z = true.
Proof.
  rewrite !ltb_rank. intros (Hx & _ & Hxy) (_ & Hz & Hyz).
  repeat split; try assumption. exact (lex_lt_trans _ _ _ Hxy Hyz).
Qed.

Lemma ltb_irrefl (x : float) : ltb x x = false.
Proof.
  destruct (ltb x x) eqn:E; [| reflexivity].
  apply ltb_rank in E. destruct E as (_ & _ & E).
  exfalso. exact (lex_lt_irrefl _ E).
Qed.


Lemma ltb_leb_contra (x y : float) :
  ltb x y = true -> leb y x = true -> False.
Proof.
  rewrite leb_rank, ltb_rank. intros (_ & _ & Hxy) (_ & _ & Hyx).
  destruct Hyx as [Hlt | Heq].
  - exact (lex_lt_irrefl _ (lex_lt_trans _ _ _ Hxy Hlt)).
  - rewrite Heq in Hxy. exact (lex_lt_irrefl _ Hxy).
Qed.

Lemma eqb_refl (x : float) : is_nan x = false -> eqb x x = true.
Proof. intros Hx. apply eqb_rank. repeat split; assumption. Qed.

Lemma leb_not_ltb_eqb (x y : float) :
  leb x y = true -> ltb x y = false -> eqb x y = true.
Proof.
  intros Hle Hlt. apply leb_rank in Hle. destruct Hle as (Hx & Hy & [Hl | He]).
  - assert (ltb x y = true) by (apply ltb_rank; repeat split; assumption).
    congruence.
  - apply eqb_rank. repeat split; assumption.
Qed.

Lemma ltb_not_nan_l (x y : float) : ltb x y = true -> is_nan x = false.
Proof. intros Hlt. apply ltb_rank in Hlt. tauto. Qed.

Lemma ltb_not_nan_r (x y : float) : ltb x y = true -> is_nan y = false.
Proof. intros Hlt. apply ltb_rank in Hlt. tauto. Qed.

End F32Facts.

(** ** The diagnostics loop *)

Module DiagnosticsFacts.
Import F32 Transcribe F32Facts.

Lemma non_zero_fold (samples : list float) (st : audio_stats) :
  non_zero (fold_left stats_step samples st)
  = non_zero st + count_non_zero samples.
Proof.
  revert st. induction samples as [| v samples IH]; intros st.
  - unfold count_non_zero. cbn. lia.
  - cbn [fold_left]. rewrite IH. unfold count_non_zero. cbn [filter stats_step non_zero].
    destruct (negb (eqb v (of_int 0))); cbn [length]; lia.
Qed.

Lemma sum_abs_fold (samples : list float) (st : audio_stats) :
  sum_abs (fold_left stats_step samples st)
  = fold_left (fun s v => add s (magnitude v)) samples (sum_abs st).
Proof.
  revert st. induction samples as [| v samples IH]; intros st;
    [reflexivity |].
  cbn [fold_left]. rewrite IH. reflexivity.
Qed.

(** The running minimum never rises, bounds every sample seen from below,
    and is either the starting value or a (non-NaN) sample. *)
Lemma min_val_fold (samples : list float) (st : audio_stats) :
  let st' := fold_left stats_step samples st in
  (ltb (min_val st') (min_val st) = true \/ min_val st' = min_val st) /\
  (forall v, In v samples -> ltb v (min_val st') = false) /\
  (min_val st' = min_val st \/
   (In (min_val st') samples /\ is_nan (min_val st') = false)).
Proof.
  revert st. induction samples as [| x samples IH]; intros st; cbn zeta.
  - cbn. split; [right; reflexivity | split; [tauto | left; reflexivity]].
  - cbn [fold_left].
    destruct (IH (stats_step st x)) as (Hmono & Hlow & Hatt).
    set (st' := fold_left stats_step samples (stats_step st x)) in *.
    assert (Hstep : (ltb x (min_val st) = true /\ min_val (stats_step st x) = x)
                    \/ (ltb x (min_val st) = false
                        /\ min_val (stats_step st x) = min_val st)).
    { cbn [stats_step min_val]. destruct (ltb x (min_val st)); tauto. }
    assert (Hx : ltb x (min_val (stats_step st x)) = false).
    { destruct Hstep as [[_ ->] | [E ->]]; [apply ltb_irrefl | exact E]. }
    split; [| split].
    + destruct Hstep as [[Hlt Hmin] | [_ Hmin]]; rewrite Hmin in Hmono.
      * left. destruct Hmono as [Hlt' | ->]; [| exact Hlt].
        exact (ltb_trans _ _ _ Hlt' Hlt).
      * exact Hmono.
    + intros v [<- | Hin]; [| exact (Hlow v Hin)].
      destruct Hmono as [Hlt | Heq]; [| rewrite Heq; exact Hx].
      destruct (ltb x (min_val st')) eqn:E; [| reflexivity].
      rewrite (ltb_trans _ _ _ E Hlt) in Hx. discriminate.
    + destruct Hatt as [Heq | [Hin Hnan]].
      * destruct Hstep as [[Hlt Hmin] | [_ Hmin]]; rewrite Hmin in Heq.
        -- right. rewrite Heq. split; [left; reflexivity |].
           exact (ltb_not_nan_l _ _ Hlt).
        -- left. exact Heq.
      * right. split; [right; exact Hin | exact Hnan].
Qed.

Lemma max_val_fold (samples : list float) (st : audio_stats) :
  let st' := fold_left stats_step samples st in
  (ltb (max_val st) (max_val st') = true \/ max_val st' = max_val st) /\
  (forall v, In v samples -> ltb (max_val st') v = false) /\
  (max_val st' = max_val st \/
   (In (max_val st') samples /\ is_nan (max_val st') = false)).
Proof.
  revert st. induction samples as [| x samples IH]; intros st; cbn zeta.
  - cbn. split; [right; reflexivity | split; [tauto | left; reflexivity]].
  - cbn [fold_left].
    destruct (IH (stats_step st x)) as (Hmono & Hup & Hatt).
    set (st' := fold_left stats_step samples (stats_step st x)) in *.
    assert (Hstep : (ltb (max_val st) x = true /\ max_val (stats_step st x) = x)
                    \/ (ltb (max_val st) x = false
                        /\ max_val (stats_step st x) = max_val st)).
    { cbn [stats_step max_val]. destruct (ltb (max_val st) x); tauto. }
    assert (Hx : ltb (max_val (stats_step st x)) x = false).
    { destruct Hstep as [[_ ->] | [E ->]]; [apply ltb_irrefl | exact E]. }
    split; [| split].
    + destruct Hstep as [[Hlt Hmax] | [_ Hmax]]; rewrite Hmax in Hmono.
      * left. destruct Hmono as [Hlt' | ->]; [| exact Hlt].
        exact (ltb_trans _ _ _ Hlt Hlt').
      * exact Hmono.
    + intros v [<- | Hin]; [| exact (Hup v Hin)].
      destruct Hmono as [Hlt | Heq]; [| rewrite Heq; exact Hx].
      destruct (ltb (max_val st') x) eqn:E; [| reflexivity].
      rewrite (ltb_trans _ _ _ Hlt E) in Hx. discriminate.
    + destruct Hatt as [Heq | [Hin Hnan]].
      * destruct Hstep as [[Hlt Hmax] | [_ Hmax]]; rewrite Hmax in Heq.
        -- right. rewrite Heq. split; [left; reflexivity |].
           exact (ltb_not_nan_r _ _ Hlt).
        -- left. exact Heq.
      * right. split; [right; exact Hin | exact Hnan].
Qed.

Lemma min_val_is_minimum (samples : list float) :
  (exists v, In v samples /\ leb v (of_int 0) = true) ->
  is_minimum (min_val (audio_analysis samples)) samples.
Proof.
  intros (v0 & Hin0 & Hle0). unfold audio_analysis.
  destruct (min_val_fold samples stats_init) as (_ & Hlow & Hatt).
  split; [| exact Hlow].
  destruct Hatt as [Heq | [Hin Hnan]].
  - exists v0. split; [exact Hin0 |]. rewrite Heq.
    apply leb_not_ltb_eqb; [exact Hle0 |].
    specialize (Hlow v0 Hin0). rewrite Heq in Hlow. exact Hlow.
  - eexists. split; [exact Hin | apply eqb_refl; exact Hnan].
Qed.

Lemma max_val_is_maximum (samples : list float) :
  (exists v, In v samples /\ leb (of_int 0) v = true) ->
  is_maximum (max_val (audio_analysis samples)) samples.
Proof.
  intros (v0 & Hin0 & Hle0). unfold audio_analysis.
  destruct (max_val_fold samples stats_init) as (_ & Hup & Hatt).
  split; [| exact Hup].
  destruct Hatt as [Heq | [Hin Hnan]].
  - exists v0. split; [exact Hin0 |]. rewrite Heq.
    specialize (Hup v0 Hin0). rewrite Heq in Hup.
    apply leb_rank in Hle0. destruct Hle0 as (Hz & Hv & [Hl | He]).
    + assert (ltb (max_val stats_init) v0 = true)
        by (apply ltb_rank; repeat split; assumption).
      congruence.
    + apply eqb_rank. repeat split; try assumption. symmetry. exact He.
  - eexists. split; [exact Hin | apply eqb_refl; exact Hnan].
Qed.

End DiagnosticsFacts.

(** ** Rounding of the single-precision operations *)

Module RoundingFacts.
Import F32 Transcribe Rounding F32Facts DiagnosticsFacts.

(** *** Binary digits *)

Lemma Zdigits2_log2 (m : Z) : 0 < m -> Zdigits2 m = Z.log2 m + 1.
Proof.
  destruct m as [| p | p]; try lia. intros _. cbn [Zdigits2].
  induction p as [p IH | p IH |]; cbn [digits2_pos]; try reflexivity.
  - rewrite Pos2Z.inj_succ, IH.
    change (Z.log2 (Z.pos p~1)) with (Z.pos (Pos.size p)).
    destruct p; cbn; lia.
  - rewrite Pos2Z.inj_succ, IH.
    change (Z.log2 (Z.pos p~0)) with (Z.pos (Pos.size p)).
    destruct p; cbn; lia.
Qed.

Lemma Zdigits2_bounds (m : Z) :
  0 < m -> 2 ^ (Zdigits2 m - 1) <= m < 2 ^ Zdigits2 m.
Proof.
  intros Hm. rewrite (Zdigits2_log2 m Hm).
  replace (Z.log2 m + 1 - 1) with (Z.log2 m) by lia.
  replace (Z.log2 m + 1) with (Z.succ (Z.log2 m)) by lia.
  apply Z.log2_spec. exact Hm.
Qed.

Lemma Zdigits2_nonneg (m : Z) : 0 <= Zdigits2 m.
Proof. destruct m; cbn; lia. Qed.

Lemma Zdigits2_pos (m : Z) : 0 < m -> 0 < Zdigits2 m.
Proof. destruct m; cbn; lia. Qed.

(** A number below [2^k] has at most [k] digits, one from [2^k] on has
    more. *)
Lemma Zdigits2_le (m k : Z) : 0 <= k -> 0 <= m < 2 ^ k -> Zdigits2 m <= k.
Proof.
  intros Hk [Hm0 Hm].
  destruct (Z.eq_dec m 0) as [-> | Hne]; [cbn; lia |].
  assert (Hpos : 0 < m) by lia.
  destruct (Zdigits2_bounds m Hpos) as [Hlo _].
  destruct (Z_le_gt_dec (Zdigits2 m) k) as [Hle | Hgt]; [exact Hle |].
  exfalso.
  assert (2 ^ k <= 2 ^ (Zdigits2 m - 1)) by (apply Z.pow_le_mono_r; lia).
  lia.
Qed.

Lemma Zdigits2_gt (m k : Z) : 0 <= k -> 2 ^ k <= m -> k < Zdigits2 m.
Proof.
  intros Hk Hm.
  assert (Hpos : 0 < m) by (pose proof (Z.pow_pos_nonneg 2 k); lia).
  destruct (Zdigits2_bounds m Hpos) as [_ Hhi].
  destruct (Z_lt_le_dec k (Zdigits2 m)) as [Hlt | Hge]; [exact Hlt |].
  exfalso.
  assert (2 ^ Zdigits2 m <= 2 ^ k)
    by (apply Z.pow_le_mono_r; [lia | exact Hge]).
  lia.
Qed.

(** *** Right shifts with round and sticky bits *)

Lemma shr_1_spec (m : Z) (r s : bool) :
  0 <= m ->
  shr_1 {| shr_m := m; shr_r := r; shr_s := s |}
  = {| shr_m := m / 2; shr_r := Z.odd m; shr_s := r || s |}.
Proof.
  intros Hm. destruct m as [| p | p]; [reflexivity | | lia].
  destruct p as [p | p |]; cbn [shr_1].
  - f_equal. rewrite Pos2Z.inj_xI.
    apply (Z.div_unique _ _ _ 1); lia.
  - f_equal. rewrite Pos2Z.inj_xO.
    apply (Z.div_unique _ _ _ 0); lia.
  - reflexivity.
Qed.

Lemma iter_pos_nat {A : Type} (f : A -> A) (p : positive) (x : A) :
  iter_pos f p x = Nat.iter (Pos.to_nat p) f x.
Proof.
  revert x. induction p as [p IH | p IH |]; intros x; cbn [iter_pos].
  - rewrite !IH, Pos2Nat.inj_xI.
    replace (S (2 * Pos.to_nat p)) with (Pos.to_nat p + (Pos.to_nat p + 1))%nat by lia.
    rewrite !Nat.iter_add. reflexivity.
  - rewrite !IH, Pos2Nat.inj_xO.
    replace (2 * Pos.to_nat p)%nat with (Pos.to_nat p + Pos.to_nat p)%nat by lia.
    rewrite Nat.iter_add. reflexivity.
  - reflexivity.
Qed.

(** After [k] steps the mantissa is divided by [2^k] and the round bit is
    bit [k-1] of the original mantissa. *)
Lemma shr_steps (k : nat) (m : Z) (r s : bool) :
  0 <= m ->
  let res := Nat.iter k shr_1 {| shr_m := m; shr_r := r; shr_s := s |} in
  shr_m res = m / 2 ^ Z.of_nat k /\
  ((0 < k)%nat -> shr_r res = Z.odd (m / 2 ^ (Z.of_nat k - 1))).
Proof.
  intros Hm. induction k as [| k IH]; cbn zeta.
  - cbn. split; [rewrite Z.div_1_r; reflexivity | lia].
  - cbn [Nat.iter]. destruct IH as [IHm IHr].
    destruct (Nat.iter k shr_1 {| shr_m := m; shr_r := r; shr_s := s |})
      as [m' r' s'] eqn:E. cbn [shr_m shr_r] in *.
    assert (Hm' : 0 <= m') by (rewrite IHm; apply Z.div_pos; lia).
    change (Nat.iter (S k) shr_1 {| shr_m := m; shr_r := r; shr_s := s |})
      with (shr_1 (Nat.iter k shr_1 {| shr_m := m; shr_r := r; shr_s := s |})).
    rewrite E, (shr_1_spec m' r' s' Hm'). cbn [shr_m shr_r].
    split.
    + rewrite IHm, Nat2Z.inj_succ, Z.pow_succ_r by lia.
      rewrite Z.div_div by lia. f_equal. lia.
    + intros _. rewrite IHm. f_equal. f_equal. f_equal. lia.
Qed.

Lemma fexp_eq (e : Z) : fexp 24 128 e = Z.max (e - 24) (-149).
Proof. reflexivity. Qed.

Lemma loc_of_record_of_loc (m : Z) (l : location) :
  loc_of_shr_record (shr_record_of_loc m l) = l /\
  shr_m (shr_record_of_loc m l) = m.
Proof. destruct l as [| []]; split; reflexivity. Qed.

Lemma round_nearest_even_cases (q : Z) (l : location) :
  round_nearest_even q l = q \/ round_nearest_even q l = q + 1.
Proof.
  destruct l as [| []]; cbn; try (left; reflexivity); try (right; reflexivity).
  destruct (Z.even q); [left | right]; reflexivity.
Qed.

Lemma round_nearest_even_down (mrs : shr_record) :
  shr_r mrs = false ->
  round_nearest_even (shr_m mrs) (loc_of_shr_record mrs) = shr_m mrs.
Proof. destruct mrs as [m r [|]]; cbn; intros ->; reflexivity. Qed.

(** The shift of [shr_fexp]: by [n = fexp (digits + e) - e] places when
    that is positive. *)
Lemma shr_fexp_spec (mx ex : Z) (lx : location) :
  0 <= mx ->
  let n := fexp 24 128 (Zdigits2 mx + ex) - ex in
  let np := Z.max n 0 in
  let '(mrs, e) := shr_fexp 24 128 mx ex lx in
  e = ex + np /\ shr_m mrs = mx / 2 ^ np /\
  (n <= 0 -> loc_of_shr_record mrs = lx) /\
  (0 < n -> lx = loc_Exact -> 2 * (mx mod 2 ^ n) < 2 ^ n -> shr_r mrs = false).
Proof.
  intros Hmx n np. unfold shr_fexp. fold n. unfold shr.
  destruct n as [| p | p] eqn:En; subst np.
  - cbn [Z.max Z.compare]. rewrite Z.add_0_r, Z.pow_0_r, Z.div_1_r.
    destruct (loc_of_record_of_loc mx lx) as [Hl Hm].
    repeat split; try assumption; try lia; try (intros _; assumption).
  - rewrite iter_pos_nat.
    replace (Z.max (Z.pos p) 0) with (Z.pos p) by lia.
    destruct lx as [| c].
    + destruct (shr_steps (Pos.to_nat p) mx false false Hmx) as [Hm Hr].
      rewrite positive_nat_Z in Hm, Hr. cbn [shr_record_of_loc].
      repeat split; try assumption; try lia.
      intros _ _ Hrem. rewrite Hr by lia.
      assert (H2 : 2 ^ Z.pos p = 2 * 2 ^ (Z.pos p - 1)).
      { rewrite <- Z.pow_succ_r by lia. f_equal. lia. }
      assert (Hpos : 0 < 2 ^ (Z.pos p - 1)) by (apply Z.pow_pos_nonneg; lia).
      rewrite <- Z.negb_even. apply negb_false_iff.
      apply Z.even_spec.
      exists (mx / 2 ^ Z.pos p).
      pose proof (Z.div_mod mx (2 ^ Z.pos p) ltac:(lia)) as Hdm.
      pose proof (Z.mod_pos_bound mx (2 ^ Z.pos p) ltac:(lia)) as Hmb.
      symmetry. apply (Z.div_unique _ _ _ (mx mod 2 ^ Z.pos p)); [lia |].
      rewrite H2 in Hdm at 1. lia.
    + assert (Hmrs : forall r s,
                shr_m (Nat.iter (Pos.to_nat p) shr_1
                         {| shr_m := mx; shr_r := r; shr_s := s |})
                = mx / 2 ^ Z.pos p).
      { intros r s. destruct (shr_steps (Pos.to_nat p) mx r s Hmx) as [Hm _].
        rewrite positive_nat_Z in Hm. exact Hm. }
      destruct c; cbn [shr_record_of_loc]; rewrite Hmrs;
        repeat split; try lia; discriminate.
  - replace (Z.max (Z.neg p) 0) with 0 by lia.
    rewrite Z.add_0_r, Z.pow_0_r, Z.div_1_r.
    destruct (loc_of_record_of_loc mx lx) as [Hl Hm].
    repeat split; try assumption; try lia; try (intros _; assumption).
Qed.

Lemma quotient_below_2_24 (mx ex : Z) :
  0 <= mx ->
  let n := fexp 24 128 (Zdigits2 mx + ex) - ex in
  mx / 2 ^ Z.max n 0 < 2 ^ 24 /\ -149 <= ex + Z.max n 0.
Proof.
  intros Hmx n. subst n. rewrite fexp_eq.
  split; [| lia].
  destruct (Z.eq_dec mx 0) as [-> | Hne].
  { rewrite Z.div_0_l; [lia |]. apply Z.pow_nonzero; lia. }
  assert (Hpos : 0 < mx) by lia.
  destruct (Zdigits2_bounds mx Hpos) as [_ Hhi].
  pose proof (Zdigits2_pos mx Hpos) as Hd.
  set (d := Zdigits2 mx) in *.
  set (np := Z.max (Z.max (d + ex - 24) (-149) - ex) 0).
  assert (Hnp : 0 <= np) by (unfold np; lia).
  assert (Hnp' : d - 24 <= np) by (unfold np; lia).
  apply Z.div_lt_upper_bound; [apply Z.pow_pos_nonneg; lia |].
  rewrite <- Z.pow_add_r by lia.
  assert (2 ^ d <= 2 ^ (np + 24)) by (apply Z.pow_le_mono_r; lia).
  lia.
Qed.

Lemma binary_round_aux_spec (mx ex : Z) (lx : location) :
  0 <= mx ->
  let n := fexp 24 128 (Zdigits2 mx + ex) - ex in
  let np := Z.max n 0 in
  let q := mx / 2 ^ np in
  exists m1,
    (m1 = q \/ m1 = q + 1) /\
    (lx = loc_Exact -> 2 * (mx mod 2 ^ np) < 2 ^ np -> m1 = q) /\
    binary_round_aux 24 128 false mx ex lx = round_result m1 (ex + np).
Proof.
  intros Hmx n np q.
  destruct (quotient_below_2_24 mx ex Hmx) as [Hq He].
  fold n in Hq, He. fold np in Hq, He. fold q in Hq.
  assert (Hq0 : 0 <= q) by (apply Z.div_pos; [lia | apply Z.pow_pos_nonneg; lia]).
  unfold binary_round_aux.
  pose proof (shr_fexp_spec mx ex lx Hmx) as H1. cbn zeta in H1.
  fold n in H1. fold np in H1. fold q in H1.
  destruct (shr_fexp 24 128 mx ex lx) as [mrs e'].
  destruct H1 as (-> & Hm & Hloc & Hr).
  set (m1 := round_nearest_even (shr_m mrs) (loc_of_shr_record mrs)).
  assert (Hcases : m1 = q \/ m1 = q + 1)
    by (unfold m1; rewrite <- Hm; apply round_nearest_even_cases).
  exists m1. split; [exact Hcases | split].
  - intros Hex Hrem. unfold m1.
    destruct (Z_le_gt_dec n 0) as [Hn | Hn].
    + rewrite (Hloc Hn), Hex. cbn. exact Hm.
    + rewrite round_nearest_even_down; [exact Hm |].
      apply Hr; [lia | exact Hex |].
      replace np with n in Hrem by lia. exact Hrem.
  - assert (Hm1 : 0 <= m1 <= 2 ^ 24) by lia.
    pose proof (shr_fexp_spec m1 (ex + np) loc_Exact (proj1 Hm1)) as H2.
    cbn zeta in H2.
    destruct (shr_fexp 24 128 m1 (ex + np) loc_Exact) as [mrs2 e2].
    destruct H2 as (-> & Hm2 & _ & _).
    rewrite fexp_eq in Hm2 |- *. rewrite Hm2.
    unfold round_result.
    change (Z.sub 128 24) with 104.
    destruct (Z.ltb_spec m1 (2 ^ 24)) as [Hlt | Hge].
    + assert (Hd : Zdigits2 m1 <= 24) by (apply Zdigits2_le; lia).
      replace (Z.max (Z.max (Zdigits2 m1 + (ex + np) - 24) (-149) - (ex + np)) 0)
        with 0 by lia.
      rewrite Z.pow_0_r, Z.div_1_r, Z.add_0_r.
      destruct m1 as [| p | p]; try reflexivity. lia.
    + assert (Heq : m1 = 2 ^ 24) by lia. rewrite Heq.
      change (Zdigits2 (2 ^ 24)) with 25.
      replace (Z.max (Z.max (25 + (ex + np) - 24) (-149) - (ex + np)) 0)
        with 1 by lia.
      change (2 ^ 24 / 2 ^ 1) with (Z.pos 8388608). reflexivity.
Qed.

(** Pure integer facts about rounding a scaled value [V] at granularity
    [P = 2^E']. *)
Lemma round_upper_core (V P G m1 : Z) :
  0 < P -> 0 <= V -> V <= G * P ->
  (m1 = V / P \/ m1 = V / P + 1) ->
  (2 * (V mod P) < P -> m1 = V / P) ->
  m1 * P <= G * P.
Proof.
  intros HP HV HB Hcases Hexact.
  pose proof (Z.div_mod V P ltac:(lia)) as Hdm.
  pose proof (Z.mod_pos_bound V P HP) as Hmb.
  assert (Hq : V / P <= G).
  { apply Z.div_le_upper_bound; lia. }
  destruct (Z_lt_le_dec (V / P) G) as [Hlt | Hge].
  - apply Z.mul_le_mono_nonneg_r; lia.
  - assert (Heq : V / P = G) by lia.
    assert (Hrem : V mod P = 0) by nia.
    rewrite (Hexact ltac:(lia)), Heq. lia.
Qed.

Lemma round_half_down (V P m1 : Z) :
  0 < P -> 0 <= V ->
  (2 * (V mod P) < P -> m1 = V / P) ->
  forall F, F * P <= V -> 2 * V < (2 * F + 1) * P -> m1 = F.
Proof.
  intros HP HV Hexact F Hlo Hhi.
  pose proof (Z.div_mod V P ltac:(lia)) as Hdm.
  pose proof (Z.mod_pos_bound V P HP) as Hmb.
  assert (Hq : V / P = F).
  { symmetry. apply (Z.div_unique _ _ _ (V - F * P)); lia. }
  rewrite Hexact; [exact Hq |].
  rewrite Z.mod_eq by lia. rewrite Hq. lia.
Qed.

Lemma Zdigits2_mul_pow2 (m k : Z) :
  0 < m -> 0 <= k -> Zdigits2 (m * 2 ^ k) = Zdigits2 m + k.
Proof.
  intros Hm Hk.
  assert (0 < 2 ^ k) by (apply Z.pow_pos_nonneg; lia).
  rewrite !Zdigits2_log2 by nia.
  rewrite Z.log2_mul_pow2 by lia. lia.
Qed.

Lemma shl_align_spec (mx : positive) (ex ex' : Z) :
  let '(mz, ez) := shl_align mx ex ex' in
  ez = Z.min ex ex' /\ Z.pos mz = Z.pos mx * 2 ^ (ex - ez).
Proof.
  unfold shl_align. destruct (ex' - ex) as [| d | d] eqn:Ed.
  - replace (Z.min ex ex') with ex by lia.
    rewrite Z.sub_diag, Z.pow_0_r. lia.
  - replace (Z.min ex ex') with ex by lia.
    rewrite Z.sub_diag, Z.pow_0_r. lia.
  - replace (Z.min ex ex') with ex' by lia.
    split; [reflexivity |].
    change (Pos.iter xO mx d) with (shift_pos d mx).
    rewrite shift_pos_correct.
    change (Z.pow_pos 2 d) with (2 ^ Z.pos d).
    replace (ex - ex') with (Z.pos d) by lia. lia.
Qed.

(** Rounding a positive integer mantissa at exponent [ez >= -149], seen on
    the value scaled by [2^149]. *)
Lemma binary_round_spec (p : positive) (ez : Z) :
  -149 <= ez ->
  let V := Z.pos p * 2 ^ (ez + 149) in
  let E' := Z.max (Zdigits2 V - 24) 0 in
  exists m1,
    (m1 = V / 2 ^ E' \/ m1 = V / 2 ^ E' + 1) /\
    (2 * (V mod 2 ^ E') < 2 ^ E' -> m1 = V / 2 ^ E') /\
    binary_round 24 128 false p ez = round_result m1 (E' - 149).
Proof.
  intros Hez V E'.
  assert (HdV : Zdigits2 V = Zdigits2 (Z.pos p) + (ez + 149))
    by (apply Zdigits2_mul_pow2; lia).
  pose proof (Zdigits2_pos (Z.pos p) ltac:(lia)) as Hd.
  set (d := Zdigits2 (Z.pos p)) in *.
  unfold binary_round.
  change (Z.pos (digits2_pos p)) with d.
  pose proof (shl_align_spec p ez (fexp 24 128 (d + ez))) as Hal.
  destruct (shl_align p ez (fexp 24 128 (d + ez))) as [mz ez'].
  destruct Hal as [Hez' Hmz]. rewrite fexp_eq in Hez'.
  assert (Hdz : Zdigits2 (Z.pos mz) + ez' = d + ez).
  { rewrite Hmz, Zdigits2_mul_pow2 by lia. fold d. lia. }
  destruct (binary_round_aux_spec (Z.pos mz) ez' loc_Exact ltac:(lia))
    as (m1 & Hcases & Hexact & Hres).
  rewrite Hdz, fexp_eq in Hcases, Hexact, Hres.
  set (np := Z.max (Z.max (d + ez - 24) (-149) - ez') 0) in *.
  assert (Hnp : 0 <= np) by (unfold np; lia).
  assert (HE : E' = ez' + np + 149) by (unfold E', np; lia).
  assert (Hscale : 0 <= ez' + 149) by lia.
  assert (HV : V = Z.pos mz * 2 ^ (ez' + 149)).
  { unfold V. rewrite Hmz, <- Z.mul_assoc, <- Z.pow_add_r by lia.
    f_equal. f_equal. lia. }
  assert (Hpow : 2 ^ E' = 2 ^ np * 2 ^ (ez' + 149)).
  { rewrite HE, <- Z.pow_add_r by lia. f_equal. lia. }
  assert (Hp1 : 0 < 2 ^ np) by (apply Z.pow_pos_nonneg; lia).
  assert (Hp2 : 0 < 2 ^ (ez' + 149)) by (apply Z.pow_pos_nonneg; lia).
  assert (Hdiv : V / 2 ^ E' = Z.pos mz / 2 ^ np).
  { rewrite HV, Hpow. apply Z.div_mul_cancel_r; lia. }
  assert (Hmod : V mod 2 ^ E' = (Z.pos mz mod 2 ^ np) * 2 ^ (ez' + 149)).
  { rewrite HV, Hpow. apply Z.mul_mod_distr_r; lia. }
  exists m1. rewrite Hdiv. split; [exact Hcases | split].
  - intros Hrem. apply Hexact; [reflexivity |].
    rewrite Hmod, Hpow in Hrem. nia.
  - rewrite Hres. f_equal. lia.
Qed.

Lemma round_result_scaled (m1 E' : Z) :
  0 <= m1 <= 2 ^ 24 -> 0 <= E' <= 252 ->
  nonneg_finite (round_result m1 (E' - 149)) /\
  scaled (round_result m1 (E' - 149)) = m1 * 2 ^ E'.
Proof.
  intros Hm HE. unfold round_result.
  destruct (Z.ltb_spec m1 (2 ^ 24)) as [Hlt | Hge].
  - destruct m1 as [| p | p]; [split; reflexivity | | lia].
    destruct (Z.leb_spec (E' - 149) 104); [| lia].
    cbn [nonneg_finite scaled]. split; [lia |].
    f_equal. f_equal. lia.
  - assert (Heq : m1 = 2 ^ 24) by lia.
    destruct (Z.leb_spec (E' - 149 + 1) 104); [| lia].
    cbn [nonneg_finite scaled]. split; [lia |].
    rewrite Heq. replace (E' - 149 + 1 + 149) with (E' + 1) by lia.
    rewrite Z.pow_add_r by lia. lia.
Qed.

Lemma rounded_mantissa_range (V m1 : Z) :
  0 < V ->
  let E' := Z.max (Zdigits2 V - 24) 0 in
  (m1 = V / 2 ^ E' \/ m1 = V / 2 ^ E' + 1) ->
  0 <= m1 <= 2 ^ 24.
Proof.
  intros HV E' Hcases.
  destruct (Zdigits2_bounds V HV) as [_ Hhi].
  assert (HE : 0 <= E') by (unfold E'; lia).
  assert (Hp : 0 < 2 ^ E') by (apply Z.pow_pos_nonneg; lia).
  assert (Hq0 : 0 <= V / 2 ^ E') by (apply Z.div_pos; lia).
  assert (Hq : V / 2 ^ E' < 2 ^ 24).
  { apply Z.div_lt_upper_bound; [lia |].
    rewrite <- Z.pow_add_r by lia.
    assert (2 ^ Zdigits2 V <= 2 ^ (E' + 24))
      by (apply Z.pow_le_mono_r; unfold E'; lia).
    lia. }
  lia.
Qed.

(** The sum of two positive finite floats is the rounding of the exact sum. *)
Lemma add_finite_spec (mx my : positive) (ex ey : Z) :
  -149 <= ex -> -149 <= ey ->
  let x := S754_finite false mx ex in
  let y := S754_finite false my ey in
  let V := scaled x + scaled y in
  let E' := Z.max (Zdigits2 V - 24) 0 in
  exists m1,
    (m1 = V / 2 ^ E' \/ m1 = V / 2 ^ E' + 1) /\
    (2 * (V mod 2 ^ E') < 2 ^ E' -> m1 = V / 2 ^ E') /\
    add x y = round_result m1 (E' - 149).
Proof.
  intros Hex Hey x y V E'.
  unfold add, SFadd, x, y. cbn [cond_Zopp].
  pose proof (shl_align_spec mx ex (Z.min ex ey)) as Hx.
  pose proof (shl_align_spec my ey (Z.min ex ey)) as Hy.
  destruct (shl_align mx ex (Z.min ex ey)) as [mzx ezx].
  destruct (shl_align my ey (Z.min ex ey)) as [mzy ezy].
  cbn [fst]. destruct Hx as [Hezx Hmx], Hy as [Hezy Hmy].
  change (Z.pos mzx + Z.pos mzy) with (Z.pos (mzx + mzy)).
  cbn [binary_normalize].
  destruct (binary_round_spec (mzx + mzy) (Z.min ex ey) ltac:(lia))
    as (m1 & Hcases & Hexact & Hres).
  assert (HV : Z.pos (mzx + mzy) * 2 ^ (Z.min ex ey + 149) = V).
  { unfold V, x, y, scaled. rewrite Pos2Z.inj_add, Hmx, Hmy.
    rewrite Z.mul_add_distr_r, <- !Z.mul_assoc, <- !Z.pow_add_r by lia.
    f_equal; f_equal; f_equal; lia. }
  rewrite HV in Hcases, Hexact, Hres.
  exists m1. repeat split; assumption.
Qed.

(** A bound of the shape [K * 2^-10] with [K <= 2^24] is a multiple of the
    granularity at which any value below it is rounded. *)
Lemma bound_is_multiple (V K : Z) :
  0 < V -> 1 <= K <= 2 ^ 24 -> V <= K * 2 ^ 139 ->
  let E' := Z.max (Zdigits2 V - 24) 0 in
  0 <= E' <= 140 /\ exists G, G * 2 ^ E' = K * 2 ^ 139.
Proof.
  intros HV HK HB E'.
  destruct (Zdigits2_bounds V HV) as [Hlo Hhi].
  pose proof (Zdigits2_pos V HV) as Hd.
  assert (Hd164 : Zdigits2 V <= 164).
  { apply Zdigits2_le; [lia |].
    change (2 ^ 164) with (2 ^ 24 * 2 ^ 139 * 2).
    assert (0 < 2 ^ 139) by (apply Z.pow_pos_nonneg; lia). nia. }
  split; [unfold E'; lia |].
  destruct (Z_le_gt_dec E' 139) as [Hle | Hgt].
  - exists (K * 2 ^ (139 - E')).
    rewrite <- Z.mul_assoc, <- Z.pow_add_r by (unfold E' in *; lia).
    f_equal. f_equal. lia.
  - assert (HE : E' = 140) by (unfold E' in *; lia).
    assert (Hd' : Zdigits2 V = 164) by (unfold E' in *; lia).
    rewrite Hd' in Hlo. change (2 ^ (164 - 1)) with (2 ^ 24 * 2 ^ 139) in Hlo.
    assert (0 < 2 ^ 139) by (apply Z.pow_pos_nonneg; lia).
    assert (HKeq : K = 2 ^ 24) by nia.
    exists (2 ^ 23). rewrite HE, HKeq. reflexivity.
Qed.

Lemma add_bounded (x y : float) (K : Z) :
  nonneg_finite x -> nonneg_finite y -> 1 <= K <= 2 ^ 24 ->
  scaled x + scaled y <= K * 2 ^ 139 ->
  nonneg_finite (add x y) /\ scaled (add x y) <= K * 2 ^ 139.
Proof.
  intros Hx Hy HK HB.
  destruct x as [sx | sx | | sx mx ex]; try contradiction;
    destruct y as [sy | sy | | sy my ey]; try contradiction.
  - assert (Hz : exists s, add (S754_zero sx) (S754_zero sy) = S754_zero s)
      by (destruct sx, sy; eexists; reflexivity).
    destruct Hz as [s ->]. cbn. split; [exact I |].
    assert (0 < 2 ^ 139) by (apply Z.pow_pos_nonneg; lia). nia.
  - destruct sy; [contradiction |].
    change (add (S754_zero sx) (S754_finite false my ey))
      with (S754_finite false my ey).
    split; [exact Hy | cbn [scaled] in *; lia].
  - destruct sx; [contradiction |].
    change (add (S754_finite false mx ex) (S754_zero sy))
      with (S754_finite false mx ex).
    split; [exact Hx | cbn [scaled] in *; lia].
  - destruct sx; [contradiction |]. destruct sy; [contradiction |].
    cbn [nonneg_finite] in Hx, Hy.
    destruct (add_finite_spec mx my ex ey Hx Hy)
      as (m1 & Hcases & Hexact & ->).
    set (V := scaled (S754_finite false mx ex) + scaled (S754_finite false my ey))
      in *.
    assert (HV : 0 < V).
    { unfold V. cbn [scaled].
      assert (0 < 2 ^ (ex + 149)) by (apply Z.pow_pos_nonneg; lia).
      assert (0 < 2 ^ (ey + 149)) by (apply Z.pow_pos_nonneg; lia).
      nia. }
    destruct (bound_is_multiple V K HV HK HB) as [HE (G & HG)].
    pose proof (rounded_mantissa_range V m1 HV Hcases) as Hm1.
    set (E' := Z.max (Zdigits2 V - 24) 0) in *.
    destruct (round_result_scaled m1 E' Hm1 ltac:(lia)) as [Hnf ->].
    split; [exact Hnf |].
    rewrite <- HG.
    apply (round_upper_core V (2 ^ E') G m1); try assumption; lia.
Qed.

(** Once the sum has reached [2^14], adding less than [2^-10] (half a unit
    in the last place there) leaves it at [2^14]. *)
Lemma add_stagnates (x y : float) :
  nonneg_finite x -> nonneg_finite y ->
  scaled x <= 2 ^ 24 * 2 ^ 139 -> scaled y < 2 ^ 139 ->
  nonneg_finite (add x y) /\ scaled (add x y) <= 2 ^ 24 * 2 ^ 139.
Proof.
  intros Hx Hy Hsx Hsy.
  destruct (Z_le_gt_dec (scaled x + scaled y) (2 ^ 24 * 2 ^ 139)) as [Hle | Hgt].
  { apply add_bounded; try assumption. lia. }
  destruct x as [sx | sx | | sx mx ex]; try contradiction;
    destruct y as [sy | sy | | sy my ey]; try contradiction;
    try (exfalso; cbn [scaled] in *; lia).
  destruct sx; [contradiction |]. destruct sy; [contradiction |].
  cbn [nonneg_finite] in Hx, Hy.
  {
    destruct (add_finite_spec mx my ex ey Hx Hy)
      as (m1 & Hcases & Hexact & ->).
    set (V := scaled (S754_finite false mx ex) + scaled (S754_finite false my ey))
      in *.
    assert (HV : 2 ^ 163 < V < 2 ^ 163 + 2 ^ 139)
      by (change (2 ^ 163) with (2 ^ 24 * 2 ^ 139); lia).
    assert (Hd : Zdigits2 V = 164).
    { assert (Zdigits2 V <= 164) by (apply Zdigits2_le; lia).
      assert (163 < Zdigits2 V) by (apply Zdigits2_gt; lia). lia. }
    rewrite Hd in Hcases, Hexact |- *.
    change (Z.max (164 - 24) 0) with 140 in *.
    assert (Hm1 : m1 = 2 ^ 23).
    { apply (round_half_down V (2 ^ 140) m1); try assumption; lia. }
    rewrite Hm1. split; vm_compute; congruence. }
Qed.

Lemma literal_5_4 : literal 5 4 = S754_finite false 8589935 (-34).
Proof. vm_compute. reflexivity. Qed.

Lemma bounded_mantissa (m : positive) (e : Z) :
  bounded 24 128 m e = true -> -149 <= e /\ Z.pos m < 2 ^ 24.
Proof.
  unfold bounded, canonical_mantissa. intros Hb.
  apply andb_true_iff in Hb. destruct Hb as [Hc _].
  apply Z.eqb_eq in Hc. rewrite fexp_eq in Hc.
  change (Z.pos (digits2_pos m)) with (Zdigits2 (Z.pos m)) in Hc.
  split; [lia |].
  destruct (Zdigits2_bounds (Z.pos m) ltac:(lia)) as [_ Hhi].
  assert (2 ^ Zdigits2 (Z.pos m) <= 2 ^ 24)
    by (apply Z.pow_le_mono_r; lia).
  lia.
Qed.

Lemma magnitude_quiet (v : float) :
  quiet_sample v ->
  nonneg_finite (magnitude v) /\ scaled (magnitude v) < 2 ^ 139.
Proof.
  intros (Hvalid & Hlo & Hhi). rewrite literal_5_4 in Hlo, Hhi.
  apply leb_rank in Hlo. apply leb_rank in Hhi.
  destruct Hlo as (_ & Hnan & Hlo), Hhi as (_ & _ & Hhi).
  destruct v as [s | s | | s m e]; try discriminate.
  - destruct s; cbn; split; (exact I || reflexivity).
  - exfalso. destruct s; cbn [rank opp SFopp lex_lt negb] in *.
    + destruct Hlo as [Hlo | Hlo]; [lia | discriminate].
    + destruct Hhi as [Hhi | Hhi]; [lia | discriminate].
  - cbn [valid_binary] in Hvalid.
    destruct (bounded_mantissa m e Hvalid) as [He Hm].
    assert (Hval : Z.pos m * 2 ^ (e + 149) < 2 ^ 139).
    { assert (He34 : e < -34 \/ (e = -34 /\ Z.pos m <= 8589935)).
      { destruct s; cbn [rank opp SFopp lex_lt negb] in *.
        - destruct Hlo as [Hlo | Hlo]; [lia | injection Hlo; lia].
        - destruct Hhi as [Hhi | Hhi]; [lia | injection Hhi; lia]. }
      destruct He34 as [Hlt | [-> Hle]].
      - assert (2 ^ (e + 149) <= 2 ^ 114) by (apply Z.pow_le_mono_r; lia).
        assert (0 < 2 ^ (e + 149)) by (apply Z.pow_pos_nonneg; lia).
        change (2 ^ 139) with (2 ^ 24 * 2 ^ 114 * 2). nia.
      - change (-34 + 149) with 115.
        change (2 ^ 139) with (2 ^ 24 * 2 ^ 115).
        assert (0 < 2 ^ 115) by (apply Z.pow_pos_nonneg; lia). nia. }
    destruct s.
    + change (magnitude (S754_finite true m e)) with (S754_finite false m e).
      split; [exact He | exact Hval].
    + change (magnitude (S754_finite false m e)) with (S754_finite false m e).
      split; [exact He | exact Hval].
Qed.

Lemma running_sum_bounded (samples : list float) (s : float) (k : Z) :
  0 <= k -> nonneg_finite s -> scaled s <= sum_bound k ->
  (forall v, In v samples -> quiet_sample v) ->
  let s' := fold_left (fun s v => add s (magnitude v)) samples s in
  nonneg_finite s' /\
  scaled s' <= sum_bound (k + Z.of_nat (length samples)).
Proof.
  revert s k. induction samples as [| v samples IH]; intros s k Hk Hs Hb Hq.
  - cbn. rewrite Z.add_0_r. split; assumption.
  - cbn [fold_left length]. cbn zeta.
    destruct (magnitude_quiet v (Hq v (or_introl eq_refl))) as [Hmf Hmv].
    assert (Hstep : nonneg_finite (add s (magnitude v)) /\
                    scaled (add s (magnitude v)) <= sum_bound (k + 1)).
    { unfold sum_bound in *.
      destruct (Z_le_gt_dec (k + 1) (2 ^ 24)) as [Hle | Hgt].
      - rewrite Z.min_l in Hb |- * by lia.
        apply add_bounded; try assumption; lia.
      - rewrite Z.min_r in Hb |- * by lia.
        apply add_stagnates; assumption. }
    destruct Hstep as [Hs1 Hb1].
    destruct (IH (add s (magnitude v)) (k + 1) ltac:(lia) Hs1 Hb1
                 (fun w Hw => Hq w (or_intror Hw))) as [Hs2 Hb2].
    split; [exact Hs2 |].
    replace (k + Z.of_nat (S (length samples)))
      with (k + 1 + Z.of_nat (length samples)) by lia.
    exact Hb2.
Qed.







Lemma div_core_spec (ms md : positive) (es ed : Z) :
  let e' := Z.min (fexp 24 128 (Zdigits2 (Z.pos ms) + es
                                - (Zdigits2 (Z.pos md) + ed))) (es - ed) in
  let s := es - ed - e' in
  exists l,
    SFdiv_core_binary 24 128 (Z.pos ms) es (Z.pos md) ed
    = (Z.pos ms * 2 ^ s / Z.pos md, e', l).
Proof.
  intros e' s. unfold SFdiv_core_binary. fold e'. fold s.
  assert (Hs : 0 <= s) by (unfold s, e'; lia).
  assert (Hm' : match s with
                | 0 => Z.pos ms
                | Z.pos _ => Z.shiftl (Z.pos ms) s
                | Z.neg _ => 0
                end = Z.pos ms * 2 ^ s).
  { destruct s as [| p | p]; [cbn; lia | | lia].
    apply Z.shiftl_mul_pow2. lia. }
  rewrite Hm'.
  pose proof (Z.div_eucl_eq (Z.pos ms * 2 ^ s) (Z.pos md) ltac:(lia)) as Heq.
  unfold Z.div.
  destruct (Z.div_eucl (Z.pos ms * 2 ^ s) (Z.pos md)) as [q r].
  eexists. reflexivity.
Qed.




End RoundingFacts.

(** ** [fullTranscribe] *)

Module TranscribeFacts.
Import F32 Transcribe Rounding F32Facts DiagnosticsFacts RoundingFacts StubEngine.

Section Trace.
Context {W R : Type} `{Engine W R}.

Lemma segment_lines_no_full (context : W) (n_segments : Z) :
  full_calls (segment_lines (R := R) context n_segments) = [] /\
  silence_warnings (segment_lines (R := R) context n_segments) = [].
Proof.
  unfold segment_lines.
  induction (seq 0 (Z.to_nat (Z.min n_segments 5))) as [| i l [IHf IHs]];
    split; cbn; assumption || reflexivity.
Qed.

(** The trace of a call: the analysis, the warning when the buffer appears
    silent, then the engine call with the prepared parameters, then the
    outcome lines, which hold neither an engine transcription call nor a
    silence warning.  The Java array is as before. *)
Lemma fullTranscribe_shape (context : W) (num_threads : Z)
    (audio_data : list float) (vm_copies : bool) :
  let r := fullTranscribe context num_threads audio_data vm_copies in
  exists outcome,
    trace r
    = analysis_lines audio_data
      ++ (if appears_silent audio_data
          then [Log WARN (AppearsSilent (avg_abs audio_data))] else [])
      ++ [ResetTimings; Log INFO (StartingTranscription num_threads);
          Full (transcribe_params num_threads) audio_data
               (GetArrayLength audio_data)]
      ++ outcome /\
    full_calls outcome = [] /\ silence_warnings outcome = [] /\
    audio_after r = audio_data.
Proof.
  cbn zeta. unfold fullTranscribe.
  cbn [GetFloatArrayElements elements].
  destruct (whisper_full (whisper_reset_timings context)
              (transcribe_params num_threads) audio_data
              (GetArrayLength audio_data)) as [status c2].
  assert (Hrel : forall b,
             ReleaseFloatArrayElements audio_data
               {| elements := audio_data; is_copy := b |} JNI_ABORT
             = audio_data) by (intros []; reflexivity).
  destruct (negb (status =? 0)); eexists;
    cbn [trace audio_after elems_released mode_used];
    (split; [reflexivity |]).
  - repeat split; try reflexivity. apply Hrel.
  - unfold full_calls, silence_warnings. rewrite !filter_app.
    destruct (segment_lines_no_full c2 (whisper_full_n_segments c2))
      as [Hf Hs].
    unfold full_calls, silence_warnings in Hf, Hs. rewrite Hf, Hs.
    repeat split; try reflexivity. apply Hrel.
Qed.

(** Line 260 is reached on both paths: the elements obtained at line 201
    are handed back, with [JNI_ABORT]. *)
Lemma fullTranscribe_release (context : W) (num_threads : Z)
    (audio_data : list float) (vm_copies : bool) :
  release (fullTranscribe context num_threads audio_data vm_copies)
  = {| elems_released := GetFloatArrayElements audio_data vm_copies;
       mode_used := JNI_ABORT |}.
Proof.
  unfold fullTranscribe.
  destruct (whisper_full (whisper_reset_timings context)
              (transcribe_params num_threads)
              (elements (GetFloatArrayElements audio_data vm_copies))
              (GetArrayLength audio_data)) as [status c2].
  destruct (negb (status =? 0)); reflexivity.
Qed.

Lemma fullTranscribe_full_calls (context : W) (num_threads : Z)
    (audio_data : list float) (vm_copies : bool) :
  full_calls (trace (fullTranscribe context num_threads audio_data vm_copies))
  = [Full (transcribe_params num_threads) audio_data
          (GetArrayLength audio_data)].
Proof.
  destruct (fullTranscribe_shape context num_threads audio_data vm_copies)
    as (outcome & -> & Hf & _ & _).
  unfold full_calls in *. rewrite !filter_app, Hf.
  destruct (appears_silent audio_data); reflexivity.
Qed.

Lemma fullTranscribe_silence_warnings (context : W) (num_threads : Z)
    (audio_data : list float) (vm_copies : bool) :
  silence_warnings
    (trace (fullTranscribe context num_threads audio_data vm_copies))
  = if appears_silent audio_data
    then [Log WARN (AppearsSilent (avg_abs audio_data))] else [].
Proof.
  destruct (fullTranscribe_shape context num_threads audio_data vm_copies)
    as (outcome & -> & _ & Hs & _).
  unfold silence_warnings in *. rewrite !filter_app, Hs.
  destruct (appears_silent audio_data); reflexivity.
Qed.

Lemma full_call_in_trace (context : W) (num_threads : Z)
    (audio_data : list float) (vm_copies : bool)
    (p : whisper_full_params R) (s : list float) (n : Z) :
  In (Full p s n)
     (trace (fullTranscribe context num_threads audio_data vm_copies)) ->
  p = transcribe_params num_threads /\ s = audio_data /\
  n = GetArrayLength audio_data.
Proof.
  intros Hin.
  assert (Hf : In (Full p s n)
                 (full_calls (trace (fullTranscribe context num_threads
                                       audio_data vm_copies))))
    by (apply filter_In; split; [exact Hin | reflexivity]).
  rewrite fullTranscribe_full_calls in Hf.
  destruct Hf as [Heq | []]. injection Heq as <- <- <-. repeat split.
Qed.

End Trace.

(** The three tuned thresholds as binary32 values. *)
Lemma tuned_thresholds :
  literal 28 1 = S754_finite false 11744051 (-22) /\
  opp (literal 15 1) = S754_finite true 12582912 (-23) /\
  literal 3 1 = S754_finite false 10066330 (-25).
Proof. repeat split; vm_compute; reflexivity. Qed.

(** C2: whatever the buffer, the thread hint and the engine, the one
    parameter set handed to [whisper_full] has the entropy threshold
    [2.8f] (the binary32 value nearest 2.8), the log-probability threshold
    [-1.5f] (exactly -3/2), the no-speech threshold [0.3f] (the binary32
    value nearest 0.3), language "en" and [translate = false]. *)
Theorem fullTranscribe_tuned_parameters
    (W R : Type) (He : Engine W R) (context : W) (num_threads : Z)
    (audio_data : list float) (vm_copies : bool) :
  let r := fullTranscribe context num_threads audio_data vm_copies in
  (exists p, full_calls (trace r)
             = [Full p audio_data (GetArrayLength audio_data)]) /\
  (forall p s n, In (Full p s n) (trace r) ->
     entropy_thold p = S754_finite false 11744051 (-22) /\
     logprob_thold p = S754_finite true 12582912 (-23) /\
     no_speech_thold p = S754_finite false 10066330 (-25) /\
     language p = "en"%string /\ translate p = false /\
     (Qabs (exact (entropy_thold p) - (28 # 10)) <= (1 # 8388608))%Q /\
     (exact (logprob_thold p) == - (15 # 10))%Q /\
     (Qabs (exact (no_speech_thold p) - (3 # 10)) <= (1 # 67108864))%Q).
Proof.
  cbn zeta. split.
  - eexists. apply fullTranscribe_full_calls.
  - intros p s n Hin.
    destruct (full_call_in_trace _ _ _ _ _ _ _ Hin) as (-> & _ & _).
    cbn [transcribe_params entropy_thold logprob_thold no_speech_thold
         language translate].
    destruct tuned_thresholds as (-> & -> & ->).
    repeat split; try reflexivity; vm_compute; congruence.
Qed.

(** C3 as stated fails: the parameter set handed to the engine has
    [print_timestamps = true]. *)
Lemma fullTranscribe_print_timestamps_enabled :
  exists p,
    In (Full p [literal 5 1] 1)
       (trace (fullTranscribe (W := Z) (R := unit) 0 4 [literal 5 1] false)) /\
    print_timestamps p = true.
Proof.
  eexists. split.
  - cbn. do 7 right. left. reflexivity.
  - reflexivity.
Qed.

(** C3, amended: the parameter set handed to the engine switches off the
    engine's progress, realtime and special-token printing, and leaves its
    timestamp printing switched on. *)
Theorem fullTranscribe_print_flags
    (W R : Type) (He : Engine W R) (context : W) (num_threads : Z)
    (audio_data : list float) (vm_copies : bool) :
  let r := fullTranscribe context num_threads audio_data vm_copies in
  (exists p, full_calls (trace r)
             = [Full p audio_data (GetArrayLength audio_data)]) /\
  (forall p s n, In (Full p s n) (trace r) ->
     print_progress p = false /\ print_realtime p = false /\
     print_special p = false /\ print_timestamps p = true).
Proof.
  cbn zeta. split.
  - eexists. apply fullTranscribe_full_calls.
  - intros p s n Hin.
    destruct (full_call_in_trace _ _ _ _ _ _ _ Hin) as (-> & _ & _).
    repeat split.
Qed.

(** C8: when [fullTranscribe] returns, the caller's sample array holds what
    it held before, whether the VM handed out a copy or the pinned array.
    The engine was given exactly these samples; the elements obtained at
    line 201 are the ones released at line 260, and they are released with
    [JNI_ABORT]; with the mode this call releases with, a native copy is
    never written back to the array, whatever the copy holds by then. *)
Theorem fullTranscribe_leaves_audio_unchanged
    (W R : Type) (He : Engine W R) (context : W) (num_threads : Z)
    (audio_data : list float) (vm_copies : bool) :
  let r := fullTranscribe context num_threads audio_data vm_copies in
  audio_after r = audio_data /\
  (forall p s n, In (Full p s n) (trace r) -> s = audio_data) /\
  elems_released (release r) = GetFloatArrayElements audio_data vm_copies /\
  mode_used (release r) = JNI_ABORT /\
  (forall copy : list float,
     ReleaseFloatArrayElements audio_data
       {| elements := copy; is_copy := true |} (mode_used (release r))
     = audio_data).
Proof.
  cbn zeta.
  pose proof (fullTranscribe_release context num_threads audio_data vm_copies)
    as Hrel.
  split; [| split; [| split; [| split]]].
  - destruct (fullTranscribe_shape context num_threads audio_data vm_copies)
      as (outcome & _ & _ & _ & Haudio).
    exact Haudio.
  - intros p s n Hin.
    exact (proj1 (proj2 (full_call_in_trace _ _ _ _ _ _ _ Hin))).
  - rewrite Hrel. reflexivity.
  - rewrite Hrel. reflexivity.
  - intros copy. rewrite Hrel. reflexivity.
Qed.


(** The mean the flag is taken from is the single-precision one.  At the
    very edge of the threshold it can part from the mean computed without
    rounding: the two samples of [rounding_buffer] have an exact mean just
    under 0.001, their single-precision sum is rounded up to [0.002f], the
    computed mean is [0.001f], and no silence warning is logged. *)
Lemma rounding_at_the_silence_threshold :
  rounding_buffer <> [] /\
  (mean_abs_exact rounding_buffer < 1 # 1000)%Q /\
  running_sum rounding_buffer = literal 2 3 /\
  avg_abs rounding_buffer = literal 1 3 /\
  appears_silent rounding_buffer = false /\
  silence_warnings
    (trace (fullTranscribe (W := Z) (R := unit) 0 4 rounding_buffer false)) = [].
Proof.
  repeat split; try (vm_compute; reflexivity). discriminate.
Qed.



(** The reported mean is the single-precision one as well: on
    [rounding_buffer] it is [0.001f], the exact mean of the two magnitudes
    rounded. *)
Lemma reported_mean_differs_from_exact_mean :
  avg_abs rounding_buffer = S754_finite false 8589935 (-33) /\
  ~ (exact (avg_abs rounding_buffer) == mean_abs_exact rounding_buffer)%Q /\
  In (Log INFO (AvgAbsolute (S754_finite false 8589935 (-33))))
     (trace (fullTranscribe (W := Z) (R := unit) 0 4 rounding_buffer false)).
Proof.
  split; [vm_compute; reflexivity | split].
  - vm_compute. discriminate.
  - cbn. do 3 right. left. reflexivity.
Qed.

(** C5, where the code departs from it: the running minimum and maximum
    start from zero instead of from a sample.  On the one-sample buffer
    [0.5] the summary logs the range [0.0, 0.5]: the reported minimum is
    zero, which is no sample of the buffer, while the minimum is 0.5. *)
Theorem reported_minimum_of_positive_buffer :
  let r := fullTranscribe (W := Z) (R := unit) 0 4 positive_buffer false in
  positive_buffer = [S754_finite false 8388608 (-24)] /\
  min_val (audio_analysis positive_buffer) = S754_zero false /\
  max_val (audio_analysis positive_buffer) = S754_finite false 8388608 (-24) /\
  In (Log INFO (Range (S754_zero false) (S754_finite false 8388608 (-24))))
     (trace r) /\
  ~ is_minimum (min_val (audio_analysis positive_buffer)) positive_buffer /\
  is_minimum (S754_finite false 8388608 (-24)) positive_buffer.
Proof.
  cbn zeta.
  split; [reflexivity | split; [reflexivity | split; [reflexivity | split]]].
  - cbn. do 2 right. left. reflexivity.
  - split.
    + intros [(v & [<- | []] & Heq) _]. vm_compute in Heq. discriminate.
    + split.
      * eexists. split; [left; reflexivity | reflexivity].
      * intros v [<- | []]. reflexivity.
Qed.

(** X13: what the summary logged by [fullTranscribe] does report:
    - a range whose lower end is not above and whose upper end is not
      below any sample, the lower end being the minimum of the buffer when
      some sample is [<= 0] and the upper end the maximum when some sample
      is [>= 0];
    - as mean absolute amplitude the single-precision quotient of the
      running single-precision sum of the magnitudes by the sample count;
    - the exact number of samples with [v != 0], and its percentage
      computed in single precision. *)
Lemma fullTranscribe_diagnostic_summary
    (W R : Type) (He : Engine W R) (context : W) (num_threads : Z)
    (audio_data : list float) (vm_copies : bool) :
  let r := fullTranscribe context num_threads audio_data vm_copies in
  let st := audio_analysis audio_data in
  let n := Z.of_nat (length audio_data) in
  (exists rest,
     trace r
     = [ Log INFO AudioDataAnalysis;
         Log INFO (Samples n (div (of_int n) (of_int 16000)));
         Log INFO (Range (min_val st) (max_val st));
         Log INFO (AvgAbsolute (div (running_sum audio_data) (of_int n)));
         Log INFO (NonZero (count_non_zero audio_data)
                     (div (mul (of_int (count_non_zero audio_data)) (of_int 100))
                          (of_int n))) ] ++ rest) /\
  (forall v, In v audio_data -> ltb v (min_val st) = false) /\
  (forall v, In v audio_data -> ltb (max_val st) v = false) /\
  ((exists v, In v audio_data /\ leb v (of_int 0) = true) ->
   is_minimum (min_val st) audio_data) /\
  ((exists v, In v audio_data /\ leb (of_int 0) v = true) ->
   is_maximum (max_val st) audio_data).
Proof.
  cbn zeta. split; [| split; [| split; [| split]]].
  - destruct (fullTranscribe_shape context num_threads audio_data vm_copies)
      as (outcome & -> & _).
    eexists. unfold analysis_lines, avg_abs, GetArrayLength.
    unfold audio_analysis at 3 4 5.
    rewrite sum_abs_fold, non_zero_fold. cbn [stats_init sum_abs non_zero].
    rewrite Z.add_0_l. unfold running_sum. cbn [app]. reflexivity.
  - exact (proj1 (proj2 (min_val_fold audio_data stats_init))).
  - exact (proj1 (proj2 (max_val_fold audio_data stats_init))).
  - apply min_val_is_minimum.
  - apply max_val_is_maximum.
Qed.

End TranscribeFacts.


(** ** More on the stream loader *)

Module StreamLoaderMore.
Import Jni StreamLoader Conversions Scripted StreamLoaderFacts StreamSession.

Lemma to_jint_le (z : Z) : 0 <= z -> to_jint z <= z.
Proof.
  intros Hz. unfold to_jint.
  pose proof (Z.mod_le (z + 2 ^ 31) (2 ^ 32) ltac:(lia) ltac:(lia)). lia.
Qed.

(** Line 42 never yields more than the request. *)
Lemma size_to_copy_le_request (a : abi) (read_size avail_size : Z) :
  is_size_t a read_size -> is_jint avail_size ->
  size_to_copy a read_size avail_size <= read_size.
Proof.
  intros [Hrs0 Hrs] [Hlo Hhi]. unfold size_to_copy.
  destruct (Z.ltb_spec read_size (to_size_t a avail_size)) as [Hlt | Hge].
  - apply to_jint_le. exact Hrs0.
  - destruct (Z_lt_le_dec avail_size 0) as [Hneg | Hpos]; [lia |].
    rewrite to_size_t_nonneg_jint in Hge by lia. exact Hge.
Qed.

Lemma store_bytes_length (arr : list byte) (off : nat) (bs : list byte) :
  length (store_bytes arr off bs) = length arr.
Proof.
  revert off bs. induction arr as [| x arr IH]; intros off bs; [reflexivity |].
  destruct off as [| off]; cbn [store_bytes].
  - destruct bs as [| b bs]; [reflexivity |]. cbn [length]. rewrite IH.
    reflexivity.
  - cbn [length]. rewrite IH. reflexivity.
Qed.

Lemma store_bytes_zeros (n : nat) (bs : list byte) :
  store_bytes (repeat 0 n) O bs = firstn n bs ++ repeat 0 (n - length bs).
Proof.
  revert bs. induction n as [| n IH]; intros bs; [destruct bs; reflexivity |].
  cbn [repeat store_bytes]. destruct bs as [| b bs].
  - reflexivity.
  - cbn [firstn length app Nat.sub]. rewrite IH. reflexivity.
Qed.

Section Reads.
Context {St : Type} `{InputStream St}.

(** What a defined call did, in terms of line 42. *)
Lemma input_stream_read_some (a : abi) (ctx : input_stream_context St)
    (read_size : Z) (r : read_result St) :
  input_stream_read a ctx read_size = Some r ->
  let avail := fst (available (input_stream ctx)) in
  let size := size_to_copy a read_size avail in
  let answer := read (snd (available (input_stream ctx))) 0 size in
  0 <= size /\
  requested_len r = size /\ returned r = to_size_t a size /\
  copied r = to_size_t a size /\
  n_read r = fst (fst answer) /\
  output r = firstn (Z.to_nat (to_size_t a size))
               (store_bytes (repeat 0 (Z.to_nat size)) O (snd (fst answer))) /\
  offset (ctx_after r) = to_size_t a (offset ctx + to_size_t a size) /\
  input_stream (ctx_after r) = snd answer /\
  logged r = (if negb (size =? to_jint read_size) || negb (size =? n_read r)
              then [PartialRead read_size size (n_read r)] else []).
Proof.
  unfold input_stream_read.
  destruct (available (input_stream ctx)) as [av s1]. cbn [fst snd].
  unfold NewByteArray.
  destruct (Z.ltb_spec (size_to_copy a read_size av) 0) as [Hneg | Hpos];
    [discriminate |].
  destruct (read s1 0 (size_to_copy a read_size av)) as [[n stored] s2].
  intros Heq. injection Heq as <-. cbn.
  repeat split; try reflexivity; exact Hpos.
Qed.

End Reads.

Lemma is_size_t_of_int_range (a : abi) (z : Z) :
  0 <= z <= INT_MAX -> is_size_t a z.
Proof.
  unfold is_size_t, INT_MAX. intros Hz.
  destruct (SIZE_MODULUS_cases a) as [-> | ->]; lia.
Qed.

Lemma size_to_copy_zero_request (a : abi) (avail_size : Z) :
  is_jint avail_size -> size_to_copy a 0 avail_size = 0.
Proof.
  intros [Hlo Hhi]. unfold size_to_copy.
  destruct (Z.ltb_spec 0 (to_size_t a avail_size)) as [Hlt | Hge];
    [reflexivity |].
  destruct (to_size_t_is_size_t a avail_size) as [H0 _].
  destruct (Z_lt_le_dec avail_size 0) as [Hneg | Hpos].
  - rewrite to_size_t_negative_jint in Hge by lia.
    unfold INT_MIN in Hlo.
    destruct (SIZE_MODULUS_cases a) as [E | E]; rewrite E in Hge; lia.
  - rewrite to_size_t_nonneg_jint in Hge by lia. lia.
Qed.

(** X1: the callback never writes past the buffer it was given: on every
    call that goes through, the byte count handed to [memcpy], the count
    returned and the length asked of the stream are one number between 0
    and [read_size], and that many bytes are written. *)
Theorem input_stream_read_within_request
    (St : Type) (Hst : InputStream St) (a : abi)
    (ctx : input_stream_context St) (read_size : Z) (r : read_result St) :
  is_size_t a read_size ->
  is_jint (fst (available (input_stream ctx))) ->
  input_stream_read a ctx read_size = Some r ->
  0 <= copied r <= read_size /\
  returned r = copied r /\ requested_len r = copied r /\
  Z.of_nat (length (output r)) = copied r.
Proof.
  intros Hrs Hav Hr.
  destruct (input_stream_read_some a ctx read_size r Hr)
    as (Hpos & Hreq & Hret & Hcp & _ & Hout & _).
  pose proof (size_to_copy_le_request a read_size _ Hrs Hav) as Hle.
  set (size := size_to_copy a read_size (fst (available (input_stream ctx))))
    in *.
  assert (Hsmall : to_size_t a size = size).
  { unfold to_size_t. apply Z.mod_small. destruct Hrs. lia. }
  rewrite Hsmall in Hret, Hcp, Hout.
  rewrite Hcp, Hret, Hreq, Hout.
  repeat split; try lia.
  rewrite length_firstn, store_bytes_length, repeat_length. lia.
Qed.

Lemma input_stream_read_within_request_witness :
  exists r,
    input_stream_read LP64 {| offset := 0; input_stream := trickling_stream |} 4
      = Some r /\
    0 <= copied r <= 4 /\ Z.of_nat (length (output r)) = copied r.
Proof.
  assert (Hrs : is_size_t LP64 4) by (unfold is_size_t; cbn; lia).
  assert (Hav : is_jint 10) by (unfold is_jint, INT_MIN, INT_MAX; lia).
  eexists. split; [vm_compute; reflexivity |].
  destruct (input_stream_read_within_request scripted_stream
              scripted_InputStream LP64
              {| offset := 0; input_stream := trickling_stream |} 4 _
              Hrs Hav eq_refl) as (Hc & _ & _ & Hl).
  split; [exact Hc | exact Hl].
Defined.

(** X2: a request for zero bytes always goes through and moves nothing,
    whatever [available()] reports, negative values included: zero bytes
    are asked of the stream, none is written, zero is returned and the
    offset stays where it was. *)
Theorem input_stream_read_zero_request
    (St : Type) (Hst : InputStream St) (a : abi)
    (ctx : input_stream_context St) :
  is_jint (fst (available (input_stream ctx))) ->
  exists r,
    input_stream_read a ctx 0 = Some r /\
    requested_len r = 0 /\ copied r = 0 /\ returned r = 0 /\
    output r = [] /\
    offset (ctx_after r) = to_size_t a (offset ctx) /\
    (logged r = [] <-> n_read r = 0).
Proof.
  intros Hav.
  pose proof (size_to_copy_zero_request a _ Hav) as Hsize.
  assert (Hrange : 0 <= size_to_copy a 0 (fst (available (input_stream ctx)))
                   <= INT_MAX) by (rewrite Hsize; unfold INT_MAX; lia).
  destruct (input_stream_read_defined a ctx 0 Hrange) as (r & Hr & _).
  exists r. split; [exact Hr |].
  destruct (input_stream_read_some a ctx 0 r Hr)
    as (_ & Hreq & Hret & Hcp & _ & Hout & Hoff & _ & Hlog).
  rewrite Hsize in *.
  assert (Hz : to_size_t a 0 = 0) by (destruct a; reflexivity).
  rewrite Hz in *. rewrite Z.add_0_r in Hoff.
  repeat split; try assumption.
  - rewrite Hlog. change (0 =? to_jint 0) with true. cbn [negb orb].
    destruct (Z.eqb_spec 0 (n_read r)); cbn; [intros _; lia | discriminate].
  - intros Hn. rewrite Hlog, Hn. reflexivity.
Qed.

Lemma input_stream_read_zero_request_witness :
  is_jint (-1) /\
  exists r,
    input_stream_read ILP32 {| offset := 7; input_stream := exhausted_stream |} 0
      = Some r /\
    returned r = 0 /\ output r = [] /\ offset (ctx_after r) = 7.
Proof.
  assert (Hav : is_jint (-1)) by (unfold is_jint, INT_MIN, INT_MAX; lia).
  split; [exact Hav |].
  destruct (input_stream_read_zero_request scripted_stream scripted_InputStream
              ILP32 {| offset := 7; input_stream := exhausted_stream |} Hav)
    as (r & Hr & _ & _ & Hret & Hout & Hoff & _).
  exists r. repeat split; assumption.
Defined.

(** X3: with a non-negative [available()], a positive request returns data
    exactly when [eof] on the same context answers false; at end of data it
    returns 0 and leaves the offset alone. *)
Theorem input_stream_read_progress_iff_not_eof
    (St : Type) (Hst : InputStream St) (a : abi)
    (ctx : input_stream_context St) (read_size : Z) :
  is_size_t a read_size -> 0 < read_size ->
  0 <= fst (available (input_stream ctx)) <= INT_MAX ->
  exists r,
    input_stream_read a ctx read_size = Some r /\
    (0 < returned r <-> fst (input_stream_eof ctx) = false) /\
    (fst (input_stream_eof ctx) = true ->
     returned r = 0 /\ output r = [] /\
     offset (ctx_after r) = to_size_t a (offset ctx)).
Proof.
  intros Hrs Hpos Hav.
  pose proof (size_to_copy_nonnegative_available a read_size _ Hrs Hav) as Hsize.
  assert (Hrange : 0 <= size_to_copy a read_size
                          (fst (available (input_stream ctx))) <= INT_MAX)
    by (rewrite Hsize; lia).
  destruct (input_stream_read_defined a ctx read_size Hrange) as (r & Hr & _).
  exists r. split; [exact Hr |].
  destruct (input_stream_read_some a ctx read_size r Hr)
    as (_ & _ & Hret & _ & _ & Hout & Hoff & _).
  assert (Heof : fst (input_stream_eof ctx)
                 = (fst (available (input_stream ctx)) <=? 0)).
  { unfold input_stream_eof.
    destruct (available (input_stream ctx)); reflexivity. }
  rewrite Hsize in *.
  set (avail := fst (available (input_stream ctx))) in *.
  assert (Hsmall : to_size_t a (Z.min read_size avail) = Z.min read_size avail).
  { unfold to_size_t. apply Z.mod_small. destruct Hrs. lia. }
  rewrite Hsmall in *.
  rewrite Heof, Hret. split; [| intros Hle].
  - destruct (Z.leb_spec avail 0); split; intros; try lia; discriminate.
  - apply Z.leb_le in Hle.
    assert (Hmin : Z.min read_size avail = 0) by lia.
    rewrite Hmin in *. rewrite Z.add_0_r in Hoff.
    split; [reflexivity | split; [rewrite Hout; reflexivity | exact Hoff]].
Qed.

Lemma input_stream_read_progress_iff_not_eof_witness :
  is_size_t LP64 4 /\ 0 < 4 /\ 0 <= 10 <= INT_MAX /\
  exists r,
    input_stream_read LP64 {| offset := 0; input_stream := trickling_stream |} 4
      = Some r /\
    (0 < returned r <->
     fst (input_stream_eof {| offset := 0; input_stream := trickling_stream |})
     = false).
Proof.
  assert (Hrs : is_size_t LP64 4) by (unfold is_size_t; cbn; lia).
  assert (Hav : 0 <= 10 <= INT_MAX) by (unfold INT_MAX; lia).
  split; [exact Hrs | split; [lia | split; [exact Hav |]]].
  destruct (input_stream_read_progress_iff_not_eof scripted_stream
              scripted_InputStream LP64
              {| offset := 0; input_stream := trickling_stream |} 4
              Hrs ltac:(lia) Hav) as (r & Hr & Hiff & _).
  exists r. split; [exact Hr | exact Hiff].
Defined.

(** X4: what reaches the engine's buffer is what the stream stored, cut to the
    returned count, and zeros for the rest: when the stream stores fewer
    bytes than were returned, the remainder is zero bytes, not stream
    data. *)
Theorem input_stream_read_pads_with_zeros
    (St : Type) (Hst : InputStream St) (a : abi)
    (ctx : input_stream_context St) (read_size : Z) (r : read_result St) :
  is_size_t a read_size ->
  is_jint (fst (available (input_stream ctx))) ->
  input_stream_read a ctx read_size = Some r ->
  let n := Z.to_nat (returned r) in
  let stored :=
    snd (fst (read (snd (available (input_stream ctx))) 0 (returned r))) in
  output r = firstn n stored ++ repeat 0 (n - length stored).
Proof.
  intros Hrs Hav Hr.
  destruct (input_stream_read_some a ctx read_size r Hr)
    as (Hpos & _ & Hret & _ & _ & Hout & _).
  pose proof (size_to_copy_le_request a read_size _ Hrs Hav) as Hle.
  set (size := size_to_copy a read_size (fst (available (input_stream ctx))))
    in *.
  assert (Hsmall : to_size_t a size = size).
  { unfold to_size_t. apply Z.mod_small. destruct Hrs. lia. }
  rewrite Hsmall in Hret, Hout. cbn zeta. rewrite Hret, Hout.
  rewrite store_bytes_zeros. apply firstn_all2.
  rewrite length_app, length_firstn, repeat_length. lia.
Qed.

Lemma input_stream_read_pads_with_zeros_witness :
  exists r,
    input_stream_read LP64 {| offset := 0; input_stream := trickling_stream |} 5
      = Some r /\
    returned r = 5 /\ n_read r = 3 /\ output r = [1; 2; 3; 0; 0].
Proof.
  assert (Hrs : is_size_t LP64 5) by (unfold is_size_t; cbn; lia).
  assert (Hav : is_jint 10) by (unfold is_jint, INT_MIN, INT_MAX; lia).
  eexists. split; [vm_compute; reflexivity |].
  split; [reflexivity | split; [reflexivity |]].
  exact (input_stream_read_pads_with_zeros scripted_stream scripted_InputStream
           LP64 {| offset := 0; input_stream := trickling_stream |} 5 _
           Hrs Hav eq_refl).
Defined.

(** X5: no "Partial read" line is logged exactly when the stream reported at
    least the requested number of bytes as available and its [read]
    answered exactly that number. *)
Theorem input_stream_read_silent_iff_full
    (St : Type) (Hst : InputStream St) (a : abi)
    (ctx : input_stream_context St) (read_size : Z) :
  0 <= read_size <= INT_MAX ->
  0 <= fst (available (input_stream ctx)) <= INT_MAX ->
  exists r,
    input_stream_read a ctx read_size = Some r /\
    (logged r = [] <->
     read_size <= fst (available (input_stream ctx)) /\ n_read r = read_size).
Proof.
  intros Hrs Hav.
  pose proof (is_size_t_of_int_range a read_size Hrs) as Hst'.
  pose proof (size_to_copy_nonnegative_available a read_size _ Hst' Hav) as Hsize.
  assert (Hrange : 0 <= size_to_copy a read_size
                          (fst (available (input_stream ctx))) <= INT_MAX)
    by (rewrite Hsize; lia).
  destruct (input_stream_read_defined a ctx read_size Hrange) as (r & Hr & _).
  exists r. split; [exact Hr |].
  destruct (input_stream_read_some a ctx read_size r Hr)
    as (_ & _ & _ & _ & _ & _ & _ & _ & Hlog).
  rewrite Hsize in Hlog.
  rewrite (to_jint_in_range read_size) in Hlog
    by (unfold is_jint, INT_MIN, INT_MAX in *; lia).
  set (avail := fst (available (input_stream ctx))) in *.
  rewrite Hlog.
  destruct (Z.eqb_spec (Z.min read_size avail) read_size) as [E1 | E1];
    destruct (Z.eqb_spec (Z.min read_size avail) (n_read r)) as [E2 | E2];
    cbn [negb orb]; split; try discriminate; intros; try split; try lia.
  all: destruct H; lia.
Qed.

Lemma input_stream_read_silent_iff_full_witness :
  0 <= 3 <= INT_MAX /\ 0 <= 10 <= INT_MAX /\
  exists r,
    input_stream_read LP64 {| offset := 0; input_stream := trickling_stream |} 3
      = Some r /\
    (logged r = [] <-> 3 <= 10 /\ n_read r = 3).
Proof.
  assert (Hrs : 0 <= 3 <= INT_MAX) by (unfold INT_MAX; lia).
  assert (Hav : 0 <= 10 <= INT_MAX) by (unfold INT_MAX; lia).
  split; [exact Hrs | split; [exact Hav |]].
  exact (input_stream_read_silent_iff_full scripted_stream scripted_InputStream
           LP64 {| offset := 0; input_stream := trickling_stream |} 3 Hrs Hav).
Defined.

Section Runs.
Context {St : Type} `{InputStream St}.

Lemma read_requests_offset_mod (a : abi) (sizes : list Z) :
  forall (ctx ctx' : input_stream_context St) (rs : list (read_result St)),
    read_requests a ctx sizes = Some (rs, ctx') ->
    length rs = length sizes /\
    to_size_t a (offset ctx') = to_size_t a (offset ctx + total_returned rs) /\
    (sizes <> [] -> is_size_t a (offset ctx')).
Proof.
  induction sizes as [| n rest IH]; intros ctx ctx' rs Hrun;
    cbn [read_requests] in Hrun.
  - injection Hrun as <- <-. cbn [total_returned fold_right length].
    rewrite Z.add_0_r.
    split; [reflexivity | split; [reflexivity | intros Hne; congruence]].
  - destruct (input_stream_read a ctx n) as [r |] eqn:Hr; [| discriminate].
    destruct (read_requests a (ctx_after r) rest) as [[rs' c] |] eqn:Hrest;
      [| discriminate].
    injection Hrun as <- <-.
    destruct (IH _ _ _ Hrest) as (Hlen & Hoff & Hsz).
    destruct (input_stream_read_some a ctx n r Hr)
      as (_ & _ & Hret & _ & _ & _ & Hoff1 & _).
    rewrite <- Hret in Hoff1.
    split; [cbn [length]; congruence | split].
    + rewrite Hoff, Hoff1. cbn [total_returned fold_right].
      fold (total_returned rs').
      unfold to_size_t. rewrite Zplus_mod_idemp_l. f_equal. lia.
    + intros _. destruct rest as [| n' rest'].
      * cbn in Hrest. injection Hrest as _ <-. rewrite Hoff1.
        apply to_size_t_is_size_t.
      * apply Hsz. discriminate.
Qed.

End Runs.

(** X6: over any run of reads that goes through, the offset kept in the context
    is the number of bytes handed to the engine so far: it ends at the
    starting offset plus the sum of the returned counts, in [size_t]
    arithmetic, and exactly at that sum when nothing wraps. *)
Theorem read_requests_offset_is_total
    (St : Type) (Hst : InputStream St) (a : abi)
    (ctx ctx' : input_stream_context St) (sizes : list Z)
    (rs : list (read_result St)) :
  is_size_t a (offset ctx) ->
  read_requests a ctx sizes = Some (rs, ctx') ->
  length rs = length sizes /\
  offset ctx' = to_size_t a (offset ctx + total_returned rs) /\
  (is_size_t a (offset ctx + total_returned rs) ->
   offset ctx' = offset ctx + total_returned rs).
Proof.
  intros Hoff0 Hrun.
  destruct (read_requests_offset_mod a sizes ctx ctx' rs Hrun)
    as (Hlen & Hmod & Hsz).
  assert (Hoff : is_size_t a (offset ctx')).
  { destruct sizes as [| n rest]; [| apply Hsz; discriminate].
    cbn in Hrun. injection Hrun as _ <-. exact Hoff0. }
  assert (Heq : offset ctx' = to_size_t a (offset ctx + total_returned rs)).
  { rewrite <- Hmod. unfold to_size_t. symmetry. apply Z.mod_small.
    exact Hoff. }
  split; [exact Hlen | split; [exact Heq |]].
  intros Hfit. rewrite Heq. unfold to_size_t. apply Z.mod_small. exact Hfit.
Qed.

Lemma read_requests_offset_is_total_witness :
  is_size_t LP64 0 /\
  exists rs ctx',
    read_requests LP64 {| offset := 0; input_stream := trickling_stream |}
      [4; 0; 5] = Some (rs, ctx') /\
    total_returned rs = 9 /\ offset ctx' = 9.
Proof.
  assert (H0 : is_size_t LP64 0) by (unfold is_size_t; cbn; lia).
  split; [exact H0 |].
  eexists. eexists. split; [vm_compute; reflexivity |].
  split; [reflexivity |].
  exact (proj1 (proj2
    (read_requests_offset_is_total scripted_stream scripted_InputStream LP64
       {| offset := 0; input_stream := trickling_stream |} _ [4; 0; 5] _
       H0 eq_refl))).
Defined.

End StreamLoaderMore.


(** ** More on the asset loader and the handle's life cycle *)

Module AssetLifecycleFacts.
Import Whisper AssetLoader Bundle Lifecycle Conversions AssetLoaderFacts.

(** X7: [asset_read] hands the [int] of [AAsset_read] back as a [size_t]: a
    non-negative count unchanged, a negative one (the NDK's error answer)
    as [2^w] plus that value, a count above every real buffer; bytes and
    asset are passed on as [AAsset_read] left them. *)
Theorem asset_read_count_conversion
    (J M A : Type) (Has : AssetApi J M A) (a : abi) (asset : A)
    (read_size : Z) :
  let answer := AAsset_read asset read_size in
  let n := fst (fst answer) in
  is_jint n ->
  snd (fst (asset_read a asset read_size)) = snd (fst answer) /\
  snd (asset_read a asset read_size) = snd answer /\
  (0 <= n -> fst (fst (asset_read a asset read_size)) = n) /\
  (n < 0 ->
   fst (fst (asset_read a asset read_size)) = SIZE_MODULUS a + n /\
   SIZE_MAX a - 2 ^ 31 <= fst (fst (asset_read a asset read_size))).
Proof.
  cbn zeta. unfold asset_read.
  destruct (AAsset_read asset read_size) as [[n data] asset'].
  cbn [fst snd]. intros [Hlo Hhi].
  split; [reflexivity | split; [reflexivity | split]].
  - intros Hn. apply to_size_t_nonneg_jint. lia.
  - intros Hn. rewrite to_size_t_negative_jint by lia.
    unfold SIZE_MAX, INT_MIN in *. lia.
Qed.

Lemma asset_read_count_conversion_witness :
  let asset := {| bytes := [7; 8; 9]; position := 1 |} in
  is_jint 2 /\ fst (fst (asset_read LP64 asset 5)) = 2.
Proof.
  cbn zeta.
  assert (Hn : is_jint 2) by (unfold is_jint, INT_MIN, INT_MAX; lia).
  split; [exact Hn |].
  exact (proj1 (proj2 (proj2
    (asset_read_count_conversion (option bundle) bundle open_asset
       bundle_AssetApi LP64 {| bytes := [7; 8; 9]; position := 1 |} 5 Hn)))
    ltac:(cbn; lia)).
Defined.

(** X8: [initContextFromAsset] enters the engine exactly when the origin opens:
    no engine call if and only if the manager or the asset could not be
    obtained, and otherwise exactly one, on a loader made of the opened
    asset and the three asset callbacks, whose answer is returned as it
    is (a null answer of the engine included). *)
Theorem initContextFromAsset_enters_engine_iff_opened
    (J M A P : Type) (Has : AssetApi J M A) (Heng : EngineInit A P)
    (a : abi) (assetManager : J) (asset_path_str : string) :
  let result := initContextFromAsset a assetManager asset_path_str in
  (engine_calls (snd result) = [] <->
   origin_unopened assetManager asset_path_str) /\
  (forall (m : M) (asset : A),
     AAssetManager_fromJava assetManager = Some m ->
     AAssetManager_open m asset_path_str AASSET_MODE_STREAMING = Some asset ->
     fst result
     = whisper_init_with_params
         {| context := asset; read := asset_read a; eof := asset_is_eof;
            close := asset_close |} whisper_context_default_params /\
     engine_calls (snd result) = [EngineInitWithParams]).
Proof.
  cbn zeta. unfold initContextFromAsset.
  destruct (whisper_init_from_asset a assetManager asset_path_str)
    as [context events] eqn:Hinit. cbn [fst snd].
  split.
  - split.
    + intros Hnone. unfold origin_unopened.
      destruct (AAssetManager_fromJava assetManager) as [m |] eqn:Hm;
        [| left; reflexivity].
      destruct (AAssetManager_open m asset_path_str AASSET_MODE_STREAMING)
        as [asset |] eqn:Ho; [| right; exists m; split; [reflexivity | exact Ho]].
      destruct (whisper_init_from_asset_opened a assetManager asset_path_str
                  m asset Hm Ho) as [_ Hcalls].
      rewrite Hinit in Hcalls. cbn [snd] in Hcalls. congruence.
    + intros Hun.
      destruct (whisper_init_from_asset_unopened a assetManager asset_path_str
                  Hun) as [_ Hcalls].
      rewrite Hinit in Hcalls. exact Hcalls.
  - intros m asset Hm Ho.
    destruct (whisper_init_from_asset_opened a assetManager asset_path_str
                m asset Hm Ho) as [Hres Hcalls].
    rewrite Hinit in Hres, Hcalls. split; assumption.
Qed.

Lemma initContextFromAsset_enters_engine_iff_opened_witness :
  AAssetManager_fromJava (Some model_bundle) = Some model_bundle /\
  fst (initContextFromAsset LP64 (Some model_bundle) "models/ggml-base.bin")
    = 4096 /\
  engine_calls
    (snd (initContextFromAsset LP64 (Some model_bundle) "models/ggml-base.bin"))
    = [EngineInitWithParams].
Proof.
  split; [reflexivity |].
  exact (proj2 (initContextFromAsset_enters_engine_iff_opened
                  (option bundle) bundle open_asset unit bundle_AssetApi
                  accepting_EngineInit LP64 (Some model_bundle)
                  "models/ggml-base.bin")
           model_bundle {| bytes := [103; 103; 109; 108]; position := 0 |}
           eq_refl eq_refl).
Defined.

(** X9: [freeContext] reaches the engine exactly when the pointer made of the
    handle's low [w] bits is not null, and then frees that pointer once;
    so releasing the handle of an asset initialisation that could not open
    its origin does nothing at all. *)
Theorem freeContext_null_is_noop
    (J M A P : Type) (Has : AssetApi J M A) (Heng : EngineInit A P)
    (a : abi) (assetManager : J) (asset_path_str : string) :
  (forall context_ptr : Z,
     (freeContext a context_ptr = [] <-> to_size_t a context_ptr = 0) /\
     (to_size_t a context_ptr <> 0 ->
      freeContext a context_ptr
      = [FreeingContext INFO; WhisperFree (to_size_t a context_ptr)])) /\
  (origin_unopened assetManager asset_path_str ->
   freeContext a (fst (initContextFromAsset a assetManager asset_path_str))
   = []).
Proof.
  split.
  - intros context_ptr. unfold freeContext.
    destruct (Z.eqb_spec (to_size_t a context_ptr) 0) as [E | E].
    + split; [tauto | congruence].
    + split; [split; [discriminate | congruence] | reflexivity].
  - intros Hun.
    destruct (whisper_init_from_asset_unopened a assetManager asset_path_str
                Hun) as [Hnull _].
    unfold initContextFromAsset.
    destruct (whisper_init_from_asset a assetManager asset_path_str)
      as [context events]. cbn [fst] in *. rewrite Hnull.
    destruct a; reflexivity.
Qed.

Lemma freeContext_null_is_noop_witness :
  origin_unopened (@None bundle) "models/ggml-base.bin" /\
  freeContext ILP32
    (fst (initContextFromAsset ILP32 (@None bundle) "models/ggml-base.bin"))
  = [].
Proof.
  assert (Hun : origin_unopened (@None bundle) "models/ggml-base.bin")
    by (left; reflexivity).
  split; [exact Hun |].
  exact (proj2 (freeContext_null_is_noop (option bundle) bundle open_asset unit
                  bundle_AssetApi accepting_EngineInit ILP32 None
                  "models/ggml-base.bin") Hun).
Defined.

End AssetLifecycleFacts.


(** ** More on [fullTranscribe] *)

Module TranscribeMore.
Import F32 Transcribe Rounding TraceObservers F32Facts DiagnosticsFacts
       RoundingFacts TranscribeFacts StubEngine.

Section Trace.
Context {W R : Type} `{Engine W R}.

Lemma segment_lines_observed (context : W) (n_segments : Z) :
  segment_logs (segment_lines (R := R) context n_segments)
    = segment_lines context n_segments /\
  engine_events (segment_lines (R := R) context n_segments) = [] /\
  error_logs (segment_lines (R := R) context n_segments) = [].
Proof.
  unfold segment_lines, segment_logs, engine_events, error_logs.
  induction (seq 0 (Z.to_nat (Z.min n_segments 5))) as [| i l (IH1 & IH2 & IH3)];
    [repeat split |].
  cbn [map filter is_segment is_engine_event is_error].
  rewrite IH1, IH2, IH3. repeat split.
Qed.

(** The whole trace and the engine state, by the status of [whisper_full]. *)
Lemma fullTranscribe_unfolded (context : W) (num_threads : Z)
    (audio_data : list float) (vm_copies : bool) :
  let r := fullTranscribe context num_threads audio_data vm_copies in
  let run := whisper_full (whisper_reset_timings context)
               (transcribe_params num_threads) audio_data
               (GetArrayLength audio_data) in
  let n := whisper_full_n_segments (snd run) in
  trace r
  = analysis_lines audio_data
    ++ (if appears_silent audio_data
        then [Log WARN (AppearsSilent (avg_abs audio_data))] else [])
    ++ [ResetTimings; Log INFO (StartingTranscription num_threads);
        Full (transcribe_params num_threads) audio_data
             (GetArrayLength audio_data)]
    ++ (if fst run =? 0
        then [Log INFO (TranscriptionComplete n)]
               ++ segment_lines (snd run) n ++ [PrintTimings]
        else [Log ERROR FailedToRun]) /\
  engine_after r
  = (if fst run =? 0 then whisper_print_timings (snd run) else snd run).
Proof.
  cbn zeta. unfold fullTranscribe. cbn [GetFloatArrayElements elements].
  destruct (whisper_full (whisper_reset_timings context)
              (transcribe_params num_threads) audio_data
              (GetArrayLength audio_data)) as [status c2].
  cbn [fst snd]. destruct (status =? 0); cbn [negb]; split; reflexivity.
Qed.

End Trace.

Lemma analysis_lines_observed {R : Type} (audio_data : list float) :
  segment_logs (analysis_lines (R := R) audio_data) = [] /\
  engine_events (analysis_lines (R := R) audio_data) = [] /\
  error_logs (analysis_lines (R := R) audio_data) = [].
Proof. repeat split. Qed.

Lemma nth_error_map_seq {B : Type} (f : nat -> B) (m k start : nat) :
  (k < m)%nat -> nth_error (map f (seq start m)) k = Some (f (start + k)%nat).
Proof.
  revert k start. induction m as [| m IH]; intros k start Hk; [lia |].
  destruct k as [| k]; cbn [seq map nth_error].
  - rewrite Nat.add_0_r. reflexivity.
  - rewrite IH by lia. f_equal. f_equal. lia.
Qed.

(** X10: the engine is reset, then run once on the prepared parameters; its
    timings are printed only after a run that succeeded.  A run that failed
    logs one error line, reads no segment, and leaves the engine as
    [whisper_full] left it. *)
Theorem fullTranscribe_outcome
    (W R : Type) (He : Engine W R) (context : W) (num_threads : Z)
    (audio_data : list float) (vm_copies : bool) :
  let r := fullTranscribe context num_threads audio_data vm_copies in
  let run := whisper_full (whisper_reset_timings context)
               (transcribe_params num_threads) audio_data
               (GetArrayLength audio_data) in
  engine_events (trace r)
  = [ResetTimings;
     Full (transcribe_params num_threads) audio_data
          (GetArrayLength audio_data)]
    ++ (if fst run =? 0 then [PrintTimings] else []) /\
  error_logs (trace r)
  = (if fst run =? 0 then [] else [Log ERROR FailedToRun]) /\
  engine_after r
  = (if fst run =? 0 then whisper_print_timings (snd run) else snd run) /\
  (fst run <> 0 -> segment_logs (trace r) = []).
Proof.
  cbn zeta.
  destruct (fullTranscribe_unfolded context num_threads audio_data vm_copies)
    as [Htrace Hengine].
  rewrite Htrace, Hengine. clear Htrace Hengine.
  set (run := whisper_full (whisper_reset_timings context)
                (transcribe_params num_threads) audio_data
                (GetArrayLength audio_data)).
  destruct (segment_lines_observed (R := R) (snd run)
              (whisper_full_n_segments (snd run))) as (Hs1 & Hs2 & Hs3).
  unfold engine_events, error_logs, segment_logs in *.
  rewrite !filter_app.
  destruct (analysis_lines_observed (R := R) audio_data) as (Ha1 & Ha2 & Ha3).
  unfold engine_events, error_logs, segment_logs in Ha1, Ha2, Ha3.
  rewrite Ha1, Ha2, Ha3.
  destruct (Z.eqb_spec (fst run) 0) as [E | E];
    destruct (appears_silent audio_data);
    rewrite ?filter_app, ?Hs1, ?Hs2, ?Hs3;
    repeat split; try reflexivity; intros; congruence.
Qed.

Lemma fullTranscribe_outcome_witness :
  let r := fullTranscribe (W := Z) (R := unit) 0 4 [literal 5 1] false in
  engine_events (trace r)
  = [ResetTimings; Full (transcribe_params 4) [literal 5 1] 1; PrintTimings] /\
  error_logs (trace r) = [] /\ engine_after r = 1.
Proof.
  cbn zeta.
  destruct (fullTranscribe_outcome Z unit counting_Engine 0 4 [literal 5 1]
              false) as (He & Herr & Hafter & _).
  split; [exact He | split; [exact Herr | exact Hafter]].
Defined.

(** X11: at most five segment lines are logged.  After a successful run there
    are exactly [min(n_segments, 5)] of them (none when the engine reports
    no segment or a negative count), the [k]-th carrying index [k] and the
    engine's text for segment [k]. *)
Theorem fullTranscribe_segment_lines
    (W R : Type) (He : Engine W R) (context : W) (num_threads : Z)
    (audio_data : list float) (vm_copies : bool) :
  let r := fullTranscribe context num_threads audio_data vm_copies in
  let run := whisper_full (whisper_reset_timings context)
               (transcribe_params num_threads) audio_data
               (GetArrayLength audio_data) in
  let n := whisper_full_n_segments (snd run) in
  (length (segment_logs (trace r)) <= 5)%nat /\
  (fst run = 0 ->
   Z.of_nat (length (segment_logs (trace r))) = Z.max 0 (Z.min n 5) /\
   forall k : nat,
     (k < length (segment_logs (trace r)))%nat ->
     nth_error (segment_logs (trace r)) k
     = Some (Log INFO (Segment (Z.of_nat k)
                         (whisper_full_get_segment_text (snd run)
                            (Z.of_nat k))))).
Proof.
  cbn zeta.
  destruct (fullTranscribe_unfolded context num_threads audio_data vm_copies)
    as [Htrace _].
  set (run := whisper_full (whisper_reset_timings context)
                (transcribe_params num_threads) audio_data
                (GetArrayLength audio_data)) in *.
  set (n := whisper_full_n_segments (snd run)) in *.
  assert (Hlogs : segment_logs
                    (trace (fullTranscribe context num_threads audio_data
                              vm_copies))
                  = if fst run =? 0 then segment_lines (snd run) n else []).
  { rewrite Htrace. unfold segment_logs. rewrite !filter_app.
    destruct (analysis_lines_observed (R := R) audio_data) as (Ha1 & _).
    unfold segment_logs in Ha1. rewrite Ha1.
    destruct (segment_lines_observed (R := R) (snd run) n) as (Hs1 & _).
    unfold segment_logs in Hs1.
    destruct (fst run =? 0); destruct (appears_silent audio_data);
      rewrite ?filter_app, ?Hs1; cbn; rewrite ?app_nil_r; reflexivity. }
  assert (Hlen : length (segment_lines (R := R) (snd run) n)
                 = Z.to_nat (Z.min n 5))
    by (unfold segment_lines; rewrite length_map, length_seq; reflexivity).
  rewrite Hlogs. split.
  - destruct (fst run =? 0); [rewrite Hlen; lia | cbn; lia].
  - intros Hok. rewrite Hok. cbn [Z.eqb]. rewrite Hlen. split; [lia |].
    intros k Hk. unfold segment_lines.
    rewrite (nth_error_map_seq _ _ k 0 Hk). reflexivity.
Qed.

Lemma fullTranscribe_segment_lines_witness :
  let r := fullTranscribe (W := Z) (R := unit) 0 4 [literal 5 1] false in
  Z.of_nat (length (segment_logs (trace r))) = 2.
Proof.
  cbn zeta.
  exact (proj1 (proj2 (fullTranscribe_segment_lines Z unit counting_Engine 0 4
                         [literal 5 1] false) eq_refl)).
Defined.

(** X12: the parameter set handed to the engine carries the caller's thread
    count as it came (no bounds are applied), greedy sampling, offset 0, no
    context carry-over, [single_segment = false]; every field the bridge
    does not assign is the engine's default for greedy sampling; and the
    sample count passed is the length of the caller's array. *)
Theorem fullTranscribe_forwards_request
    (W R : Type) (He : Engine W R) (context : W) (num_threads : Z)
    (audio_data : list float) (vm_copies : bool)
    (p : whisper_full_params R) (s : list float) (n : Z) :
  In (Full p s n)
     (trace (fullTranscribe context num_threads audio_data vm_copies)) ->
  n_threads p = num_threads /\
  strategy p = strategy (whisper_full_default_params WHISPER_SAMPLING_GREEDY) /\
  offset_ms p = 0 /\ no_context p = true /\ single_segment p = false /\
  remaining_fields p
  = remaining_fields (whisper_full_default_params WHISPER_SAMPLING_GREEDY) /\
  s = audio_data /\ n = Z.of_nat (length audio_data).
Proof.
  intros Hin.
  destruct (full_call_in_trace _ _ _ _ _ _ _ Hin) as (-> & -> & ->).
  repeat split.
Qed.

Lemma fullTranscribe_forwards_request_witness :
  In (Full (transcribe_params (-3)) [] 0)
     (trace (fullTranscribe (W := Z) (R := unit) 0 (-3) [] true)) /\
  n_threads (transcribe_params (R := unit) (-3)) = -3.
Proof.
  assert (Hin : In (Full (transcribe_params (-3)) [] 0)
                   (trace (fullTranscribe (W := Z) (R := unit) 0 (-3) [] true)))
    by (cbn; do 7 right; left; reflexivity).
  split; [exact Hin |].
  exact (proj1 (fullTranscribe_forwards_request Z unit counting_Engine 0 (-3)
                  [] true _ _ _ Hin)).
Defined.

End TranscribeMore.


(** ** More on the diagnostics *)

Module DiagnosticsMore.
Import F32 Transcribe Rounding TraceObservers F32Facts DiagnosticsFacts
       RoundingFacts TranscribeFacts StubEngine.

Lemma fullTranscribe_diagnostic_summary_witness :
  let buffer := [opp (literal 5 1); literal 25 2] in
  (exists v, In v buffer /\ leb v (of_int 0) = true) /\
  is_minimum (min_val (audio_analysis buffer)) buffer.
Proof.
  cbn zeta.
  assert (Hex : exists v, In v [opp (literal 5 1); literal 25 2]
                          /\ leb v (of_int 0) = true).
  { exists (opp (literal 5 1)). split; [left; reflexivity | reflexivity]. }
  split; [exact Hex |].
  exact (proj1 (proj2 (proj2 (proj2
    (fullTranscribe_diagnostic_summary Z unit counting_Engine 0 4
       [opp (literal 5 1); literal 25 2] false)))) Hex).
Defined.

Lemma ltb_leb (x y : float) : ltb x y = true -> leb x y = true.
Proof.
  intros Hlt. apply ltb_rank in Hlt. destruct Hlt as (Hx & Hy & Hl).
  apply leb_rank. repeat split; try assumption. left. exact Hl.
Qed.

(** X14: the reported range always contains zero: the lower end is never above
    zero and the upper end never below it, whatever the samples (none, all
    of one sign, NaNs). *)
Theorem reported_range_contains_zero
    (W R : Type) (He : Engine W R) (context : W) (num_threads : Z)
    (audio_data : list float) (vm_copies : bool) :
  let r := fullTranscribe context num_threads audio_data vm_copies in
  let st := audio_analysis audio_data in
  In (Log INFO (Range (min_val st) (max_val st))) (trace r) /\
  leb (min_val st) (of_int 0) = true /\
  leb (of_int 0) (max_val st) = true.
Proof.
  cbn zeta. split; [| split].
  - destruct (fullTranscribe_shape context num_threads audio_data vm_copies)
      as (outcome & -> & _).
    apply in_or_app. left. cbn. do 2 right. left. reflexivity.
  - unfold audio_analysis.
    destruct (min_val_fold audio_data stats_init) as ([Hlt | Heq] & _).
    + apply ltb_leb. exact Hlt.
    + rewrite Heq. reflexivity.
  - unfold audio_analysis.
    destruct (max_val_fold audio_data stats_init) as ([Hlt | Heq] & _).
    + apply ltb_leb. exact Hlt.
    + rewrite Heq. reflexivity.
Qed.

Lemma magnitude_nan (v : float) : is_nan v = true -> magnitude v = S754_nan.
Proof. destruct v; try discriminate. reflexivity. Qed.

Lemma add_nan_l (y : float) : add S754_nan y = S754_nan.
Proof. reflexivity. Qed.

Lemma add_nan_r (x : float) : add x S754_nan = S754_nan.
Proof. destruct x; reflexivity. Qed.

Lemma running_sum_nan_stays (samples : list float) :
  fold_left (fun s v => add s (magnitude v)) samples S754_nan = S754_nan.
Proof.
  induction samples as [| v samples IH]; [reflexivity |].
  cbn [fold_left]. rewrite add_nan_l. exact IH.
Qed.

Lemma running_sum_nan (samples : list float) (s : float) :
  (exists v, In v samples /\ is_nan v = true) ->
  fold_left (fun s v => add s (magnitude v)) samples s = S754_nan.
Proof.
  revert s. induction samples as [| x samples IH]; intros s (v & Hin & Hnan);
    [contradiction |].
  cbn [fold_left]. destruct Hin as [-> | Hin].
  - rewrite (magnitude_nan v Hnan), add_nan_r. apply running_sum_nan_stays.
  - apply IH. exists v. split; assumption.
Qed.

(** X15: an empty buffer, and any buffer holding a NaN sample, has the mean
    NaN: no silence warning is logged for it, however small its other
    samples, and the engine is run on it all the same. *)
Theorem nan_mean_is_never_flagged
    (W R : Type) (He : Engine W R) (context : W) (num_threads : Z)
    (audio_data : list float) (vm_copies : bool) :
  audio_data = [] \/ (exists v, In v audio_data /\ is_nan v = true) ->
  let r := fullTranscribe context num_threads audio_data vm_copies in
  avg_abs audio_data = S754_nan /\
  In (Log INFO (AvgAbsolute S754_nan)) (trace r) /\
  silence_warnings (trace r) = [] /\
  full_calls (trace r)
  = [Full (transcribe_params num_threads) audio_data
          (GetArrayLength audio_data)].
Proof.
  intros Hcase. cbn zeta.
  assert (Havg : avg_abs audio_data = S754_nan).
  { unfold avg_abs, audio_analysis. rewrite sum_abs_fold.
    cbn [stats_init sum_abs].
    destruct Hcase as [-> | Hnan]; [reflexivity |].
    rewrite (running_sum_nan audio_data (of_int 0) Hnan). reflexivity. }
  split; [exact Havg | split; [| split]].
  - destruct (fullTranscribe_shape context num_threads audio_data vm_copies)
      as (outcome & -> & _).
    apply in_or_app. left. unfold analysis_lines. rewrite Havg.
    cbn. do 3 right. left. reflexivity.
  - rewrite fullTranscribe_silence_warnings.
    unfold appears_silent. rewrite Havg. reflexivity.
  - apply fullTranscribe_full_calls.
Qed.

Lemma nan_mean_is_never_flagged_witness :
  let buffer := [S754_zero false; S754_nan] in
  (buffer = [] \/ exists v, In v buffer /\ is_nan v = true) /\
  silence_warnings
    (trace (fullTranscribe (W := Z) (R := unit) 0 4 buffer false)) = [].
Proof.
  cbn zeta.
  assert (Hcase : [S754_zero false; S754_nan] = []
                  \/ exists v, In v [S754_zero false; S754_nan]
                               /\ is_nan v = true).
  { right. exists S754_nan. split; [right; left; reflexivity | reflexivity]. }
  split; [exact Hcase |].
  exact (proj1 (proj2 (proj2
    (nan_mean_is_never_flagged Z unit counting_Engine 0 4
       [S754_zero false; S754_nan] false Hcase)))).
Defined.

(** *** Signs *)

Lemma round_result_not_negative (m1 E : Z) : not_negative (round_result m1 E).
Proof.
  unfold round_result.
  destruct (m1 <? 2 ^ 24).
  - destruct m1; [exact I | | exact I].
    destruct (E <=? 104); reflexivity.
  - destruct (E + 1 <=? 104); reflexivity.
Qed.

Lemma binary_round_not_negative (p : positive) (e : Z) :
  not_negative (binary_round 24 128 false p e).
Proof.
  unfold binary_round.
  destruct (shl_align p e (fexp 24 128 (Z.pos (digits2_pos p) + e)))
    as [mz ez].
  destruct (binary_round_aux_spec (Z.pos mz) ez loc_Exact ltac:(lia))
    as (m1 & _ & _ & ->).
  apply round_result_not_negative.
Qed.

Lemma magnitude_not_negative (v : float) : not_negative (magnitude v).
Proof. destruct v as [[|] | [|] | | [|] m e]; cbn; trivial. Qed.

Lemma add_not_negative (x y : float) :
  not_negative x -> not_negative y -> not_negative (add x y).
Proof.
  intros Hx Hy.
  destruct x as [sx | sx | | sx mx ex]; cbn [not_negative] in Hx;
    destruct y as [sy | sy | | sy my ey]; cbn [not_negative] in Hy;
    subst; try exact I; try reflexivity.
  - destruct sx, sy; exact I.
  - unfold add, SFadd. cbn [cond_Zopp].
    destruct (shl_align mx ex (Z.min ex ey)) as [mzx ezx].
    destruct (shl_align my ey (Z.min ex ey)) as [mzy ezy].
    cbn [fst]. change (Z.pos mzx + Z.pos mzy) with (Z.pos (mzx + mzy)).
    cbn [binary_normalize]. apply binary_round_not_negative.
Qed.

Lemma running_sum_not_negative (samples : list float) (s : float) :
  not_negative s ->
  not_negative (fold_left (fun s v => add s (magnitude v)) samples s).
Proof.
  revert s. induction samples as [| v samples IH]; intros s Hs; [exact Hs |].
  cbn [fold_left]. apply IH. apply add_not_negative; [exact Hs |].
  apply magnitude_not_negative.
Qed.

Lemma of_int_not_negative (n : Z) :
  0 <= n ->
  not_negative (of_int n) /\ of_int n <> S754_zero true.
Proof.
  intros Hn. destruct n as [| p | p]; [split; [exact I | discriminate] | | lia].
  unfold of_int, prec, emax. cbn [binary_normalize].
  split; [apply binary_round_not_negative |].
  unfold binary_round.
  destruct (shl_align p 0 (fexp 24 128 (Z.pos (digits2_pos p) + 0)))
    as [mz ez].
  destruct (binary_round_aux_spec (Z.pos mz) ez loc_Exact ltac:(lia))
    as (m1 & _ & _ & ->).
  unfold round_result.
  destruct (m1 <? 2 ^ 24).
  - destruct m1; try discriminate.
    destruct (_ <=? 104); discriminate.
  - destruct (_ <=? 104); discriminate.
Qed.

Lemma div_not_negative (x y : float) :
  not_negative x -> not_negative y -> y <> S754_zero true ->
  not_negative (div x y).
Proof.
  intros Hx Hy Hz.
  destruct x as [sx | sx | | sx mx ex]; cbn [not_negative] in Hx;
    destruct y as [sy | sy | | sy my ey]; cbn [not_negative] in Hy;
    subst; try exact I; try reflexivity;
    try (destruct sy; [congruence | reflexivity]).
  unfold div, SFdiv. cbn [xorb].
  destruct (div_core_spec mx my ex ey) as (l & Hcore).
  unfold prec, emax. rewrite Hcore.
  match goal with
  | |- not_negative (binary_round_aux 24 128 false ?q ?e ?l) =>
      assert (Hq : 0 <= q)
        by (apply Z.div_pos; [| lia];
            apply Z.mul_nonneg_nonneg; [lia | apply Z.pow_nonneg; lia]);
      destruct (binary_round_aux_spec q e l Hq) as (m1 & _ & _ & ->)
  end.
  apply round_result_not_negative.
Qed.

(** X16: the accumulated sum and the reported mean are never negative: for
    every buffer, whatever the signs of its samples, the mean does not
    compare below zero (it is a zero, a positive value, plus infinity, or
    NaN). *)
Theorem reported_mean_is_never_negative
    (W R : Type) (He : Engine W R) (context : W) (num_threads : Z)
    (audio_data : list float) (vm_copies : bool) :
  let r := fullTranscribe context num_threads audio_data vm_copies in
  In (Log INFO (AvgAbsolute (avg_abs audio_data))) (trace r) /\
  not_negative (sum_abs (audio_analysis audio_data)) /\
  not_negative (avg_abs audio_data) /\
  ltb (avg_abs audio_data) (of_int 0) = false.
Proof.
  cbn zeta.
  assert (Hsum : not_negative (sum_abs (audio_analysis audio_data))).
  { unfold audio_analysis. rewrite sum_abs_fold.
    apply running_sum_not_negative. exact I. }
  assert (Havg : not_negative (avg_abs audio_data)).
  { unfold avg_abs.
    destruct (of_int_not_negative (GetArrayLength audio_data)
                ltac:(unfold GetArrayLength; lia)) as [Hn Hz].
    apply div_not_negative; assumption. }
  split; [| split; [exact Hsum | split; [exact Havg |]]].
  - destruct (fullTranscribe_shape context num_threads audio_data vm_copies)
      as (outcome & -> & _).
    apply in_or_app. left. cbn. do 3 right. left. reflexivity.
  - destruct (avg_abs audio_data) as [s | s | | s m e];
      cbn [not_negative] in Havg; subst; reflexivity.
Qed.

(** X17: for a buffer of well-formed samples within +/-0.0005 the accumulated
    single-precision sum of [k] samples never exceeds [k / 1024], and it
    stops growing at [2^14]: in units of [2^-149] it is at most
    [min(k, 2^24) * 2^139], however long the buffer. *)
Theorem quiet_sum_saturates (samples : list float) :
  (forall v, In v samples -> quiet_sample v) ->
  let s := sum_abs (audio_analysis samples) in
  nonneg_finite s /\
  scaled s <= Z.min (Z.of_nat (length samples)) (2 ^ 24) * 2 ^ 139 /\
  scaled s <= 2 ^ 14 * 2 ^ 149.
Proof.
  intros Hq. cbn zeta. unfold audio_analysis. rewrite sum_abs_fold.
  cbn [stats_init sum_abs].
  destruct (running_sum_bounded samples (of_int 0) 0 ltac:(lia) I
              ltac:(vm_compute; congruence) Hq) as [Hnf Hb].
  rewrite Z.add_0_l in Hb. unfold sum_bound in Hb.
  split; [exact Hnf | split; [exact Hb |]].
  change (2 ^ 14 * 2 ^ 149) with (2 ^ 24 * 2 ^ 139).
  assert (0 < 2 ^ 139) by (apply Z.pow_pos_nonneg; lia).
  nia.
Qed.

Lemma quiet_sum_saturates_witness :
  let quiet := [literal 4 4; opp (literal 3 4)] in
  (forall v, In v quiet -> quiet_sample v) /\
  scaled (sum_abs (audio_analysis quiet)) <= 2 * 2 ^ 139.
Proof.
  cbn zeta.
  assert (Hquiet : forall v, In v [literal 4 4; opp (literal 3 4)] ->
                             quiet_sample v).
  { intros v [<- | [<- | []]]; repeat split. }
  split; [exact Hquiet |].
  exact (proj1 (proj2 (quiet_sum_saturates [literal 4 4; opp (literal 3 4)]
                         Hquiet))).
Defined.

End DiagnosticsMore.
